(** * Bayesian_Gaussian_Mixture_Model.ipynb: the notebook's own code

    The notebook is glue around TensorFlow / TensorFlow Probability.  Its
    own functions ([session_options], [reset_sess], [UnconstrainedDirichlet],
    [MVNInverseTriL], [make_tril], [joint_log_prob], the closure
    [unnormalized_posterior_log_prob]) and its top-level cells are embedded
    as computations in a state-and-exception monad whose state records the
    library's state, the Python global [sess], and the sequence of external
    calls and top-level bindings executed so far.  A closure handed to the
    library runs when the library calls it back, and the calls it makes
    there are reported to the execution that called the library.

    External functions whose meaning is data movement (reshape, concat, pad,
    set_diag, ...) are modelled on dense row-major tensors.  External
    functions whose meaning is numerics or I/O (log densities, reductions,
    sessions, the Markov chain, random numbers) are fields of the class
    [Library]: every statement below holds for every implementation. *)

From Stdlib Require Import String.
From Stdlib Require Import ZArith List Lia Bool Arith PeanoNat.
From Stdlib Require Import Floats.SpecFloat.
Import ListNotations.

Set Implicit Arguments.

(** ** float32 values *)

Module F32.

Definition prec : Z := 24.
Definition emax : Z := 128.

Definition t : Type := spec_float.

Definition zero : t := S754_zero false.

Definition of_Z (z : Z) : t := binary_normalize prec emax z 0 false.

Definition one : t := of_Z 1.

Definition opp : t -> t := SFopp.
Definition abs : t -> t := SFabs.
Definition div : t -> t -> t := SFdiv prec emax.

(** [x < 0] with the IEEE comparison (false at NaN). *)
Definition is_negative (x : t) : bool := SFltb x zero.
Definition is_nan (x : t) : bool :=
  match x with S754_nan => true | _ => false end.

(** Rounding of a float64 value to float32 ([ndarray.astype]). *)
Definition of_f64 (x : spec_float) : t :=
  match x with
  | S754_finite s m e => binary_normalize prec emax (cond_Zopp s (Zpos m)) e s
  | _ => x
  end.

End F32.

(** ** Exceptions and results *)

Inductive exn : Type :=
| ValueError
| TypeError
| NameError
| IndexError
| LibraryError (code : nat).

Inductive result (A : Type) : Type :=
| Ok (a : A)
| Raised (e : exn).

Arguments Ok {A} a.
Arguments Raised {A} e.

Definition rbind {A B} (r : result A) (k : A -> result B) : result B :=
  match r with
  | Ok a => k a
  | Raised e => Raised e
  end.

Declare Scope result_scope.
Delimit Scope result_scope with result.
Notation "x <-- r ;;; k" := (rbind r (fun x => k))
  (at level 61, r at next level, right associativity) : result_scope.

(** ** Dense tensors: a shape and the entries in row-major order *)

Record tensor : Type := { shape : list nat; data : list F32.t }.

Record bool_tensor : Type := { bshape : list nat; bdata : list bool }.

Definition numel (s : list nat) : nat := fold_right Nat.mul 1 s.

Definition vector (l : list F32.t) : tensor :=
  {| shape := [length l]; data := l |}.

Definition scalar (x : F32.t) : tensor := {| shape := []; data := [x] |}.

Fixpoint chunks {A} (d k : nat) (l : list A) : list (list A) :=
  match k with
  | 0 => []
  | S k' => firstn d l :: chunks d k' (skipn d l)
  end.

Definition mapi {A B} (f : nat -> A -> B) (l : list A) : list B :=
  map (fun p => f (fst p) (snd p)) (combine (seq 0 (length l)) l).

Fixpoint map2 {A B C} (f : A -> B -> C) (l : list A) (l' : list B) : list C :=
  match l, l' with
  | a :: l, b :: l' => f a b :: map2 f l l'
  | _, _ => []
  end.

(** [shape[:-1], shape[-1]] *)
Definition split_last (s : list nat) : option (list nat * nat) :=
  match rev s with
  | [] => None
  | d :: r => Some (rev r, d)
  end.

(** [shape[:-2], shape[-2], shape[-1]] *)
Definition split_last2 (s : list nat) : option (list nat * nat * nat) :=
  match rev s with
  | c :: r :: l => Some (rev l, r, c)
  | _ => None
  end.

Fixpoint shape_eqb (s s' : list nat) : bool :=
  match s, s' with
  | [], [] => true
  | a :: s, b :: s' => (a =? b) && shape_eqb s s'
  | _, _ => false
  end.

(** *** numpy constructors used by the model specification *)

Definition np_ones (s : list nat) : tensor :=
  {| shape := s; data := repeat F32.one (numel s) |}.

Definition np_zeros (s : list nat) : tensor :=
  {| shape := s; data := repeat F32.zero (numel s) |}.

Definition np_eye (n : nat) : tensor :=
  {| shape := [n; n];
     data := mapi (fun k _ => if k / n =? k mod n then F32.one else F32.zero)
                  (repeat F32.zero (n * n)) |}.

(** [-a] and [a / c] for a Python scalar [c], elementwise. *)
Definition ndarray_neg (a : tensor) : tensor :=
  {| shape := shape a; data := map F32.opp (data a) |}.

Definition ndarray_truediv (a : tensor) (c : F32.t) : tensor :=
  {| shape := shape a; data := map (fun x => F32.div x c) (data a) |}.

(** [np.stack(arrays)] along a new leading axis. *)
Definition np_stack (arrays : list tensor) : result tensor :=
  match arrays with
  | [] => Raised ValueError
  | a :: _ =>
      if forallb (fun b => shape_eqb (shape a) (shape b)) arrays
      then Ok {| shape := length arrays :: shape a;
                 data := concat (map data arrays) |}
      else Raised ValueError
  end.

(** [np.array(rows, dtype)] for a literal list of rows of integers. *)
Definition np_array2 (rows : list (list Z)) : tensor :=
  {| shape := [length rows; length (hd [] rows)];
     data := concat (map (map F32.of_Z) rows) |}.

(** *** TensorFlow data-movement operations *)

Definition tf_ones : list nat -> tensor := np_ones.

Definition tf_ones_like (x : tensor) : tensor := tf_ones (shape x).

(** [np.array(z, dtype)]: a scalar. *)
Definition np_array0 (z : Z) : tensor := scalar (F32.of_Z z).

(** [tf.fill(dims, value)]: [value] is a scalar. *)
Definition tf_fill (dims : list nat) (value : tensor) : result tensor :=
  match shape value, data value with
  | [], [v] => Ok {| shape := dims; data := repeat v (numel dims) |}
  | _, _ => Raised ValueError
  end.

Definition tf_constant (value : tensor) : tensor := value.

(** [a.astype(np.float32)] on float64 entries. *)
Definition ndarray_astype_float32 (a : tensor) : tensor :=
  {| shape := shape a; data := map F32.of_f64 (data a) |}.

Definition tf_eye (n : nat) (batch_shape : list nat) : tensor :=
  {| shape := batch_shape ++ [n; n];
     data := concat (repeat (data (np_eye n)) (numel batch_shape)) |}.

Definition tf_abs (x : tensor) : tensor :=
  {| shape := shape x; data := map F32.abs (data x) |}.

Definition tf_to_float (x : bool_tensor) : tensor :=
  {| shape := bshape x;
     data := map (fun b : bool => if b then F32.one else F32.zero) (bdata x) |}.

(** [x[..., tf.newaxis]] *)
Definition expand_last (x : tensor) : tensor :=
  {| shape := shape x ++ [1]; data := data x |}.

(** [tf.concat(values, axis=-1)]: the inputs share every dimension but the
    last; scalars cannot be concatenated. *)
Fixpoint concat_rows (lead : list nat) (values : list tensor)
  : result (nat * list (list F32.t)) :=
  match values with
  | [] => Ok (0, repeat [] (numel lead))
  | v :: values' =>
      match split_last (shape v) with
      | None => Raised ValueError
      | Some (lead', d) =>
          if shape_eqb lead lead'
          then match concat_rows lead values' with
               | Ok (d', rows) =>
                   Ok (d + d',
                       map2 (@app F32.t) (chunks d (numel lead) (data v)) rows)
               | Raised e => Raised e
               end
          else Raised ValueError
      end
  end.

Definition tf_concat_last (values : list tensor) : result tensor :=
  match values with
  | [] => Raised ValueError
  | v :: _ =>
      match split_last (shape v) with
      | None => Raised ValueError
      | Some (lead, _) =>
          match concat_rows lead values with
          | Ok (d, rows) => Ok {| shape := lead ++ [d]; data := concat rows |}
          | Raised e => Raised e
          end
      end
  end.

(** [tf.reduce_sum(x, axis=-1)], over the library's summation of one
    slice. *)
Definition tf_reduce_sum_last (kernel : list F32.t -> F32.t) (x : tensor)
  : result tensor :=
  match split_last (shape x) with
  | None => Raised ValueError
  | Some (lead, d) =>
      Ok {| shape := lead;
            data := map kernel (chunks d (numel lead) (data x)) |}
  end.

(** [distribution_util.pad(x, axis=-1, front, back, value, count)]: the
    flags are checked first; then the last dimension of the shape is read,
    which a scalar does not have ([x.shape[-1]] of an empty shape). *)
Definition pad (x : tensor) (front back : bool) (value : F32.t) (count : nat)
  : result tensor :=
  if negb front && negb back then Raised ValueError
  else
    match split_last (shape x) with
    | None => Raised IndexError
    | Some (lead, d) =>
        let nf := if front then count else 0 in
        let nb := if back then count else 0 in
        Ok {| shape := lead ++ [nf + d + nb];
              data := concat (map (fun row => repeat value nf ++ row
                                              ++ repeat value nb)
                                  (chunks d (numel lead) (data x))) |}
    end.

(** [tfd.fill_triangular(x)] (lower): the last axis, of length
    [m = n (n + 1) / 2], becomes an [n] by [n] matrix: the entries
    [x[n:]] followed by [x] reversed, reshaped to [n, n], then
    [matrix_band_part(-1, 0)] clears what lies above the diagonal. *)
Definition triangular_root (m : nat) : option nat :=
  let n := (Nat.sqrt (8 * m + 1) - 1) / 2 in
  if n * (n + 1) / 2 =? m then Some n else None.

Definition matrix_band_lower (n : nat) (l : list F32.t) : list F32.t :=
  mapi (fun k v => if k mod n <=? k / n then v else F32.zero) l.

Definition fill_triangular_row (n : nat) (x : list F32.t) : list F32.t :=
  matrix_band_lower n (skipn n x ++ rev x).

Definition fill_triangular (x : tensor) : result tensor :=
  match split_last (shape x) with
  | None => Raised ValueError
  | Some (lead, m) =>
      match triangular_root m with
      | None => Raised ValueError
      | Some n =>
          Ok {| shape := lead ++ [n; n];
                data := concat (map (fill_triangular_row n)
                                    (chunks m (numel lead) (data x))) |}
      end
  end.

(** [tf.matrix_diag_part(y)] *)
Definition diag_row (r c : nat) (y : list F32.t) : list F32.t :=
  map (fun i => nth (i * c + i) y F32.zero) (seq 0 (Nat.min r c)).

Definition matrix_diag_part (y : tensor) : result tensor :=
  match split_last2 (shape y) with
  | None => Raised ValueError
  | Some (lead, r, c) =>
      Ok {| shape := lead ++ [Nat.min r c];
            data := concat (map (diag_row r c)
                                (chunks (r * c) (numel lead) (data y))) |}
  end.

(** [tf.linalg.set_diag(y, diagonal)].  Building the operation checks the
    ranks: [y] has at least two axes and [diagonal] one less than [y].  A
    diagonal of that rank and of other dimensions is rejected when the
    operation is built by some versions of the library and only when it
    is evaluated by others: what the call returns then is the library's,
    [mismatch]. *)
Definition set_diag_row (c : nat) (y diagonal : list F32.t) : list F32.t :=
  mapi (fun k v => if k / c =? k mod c then nth (k / c) diagonal F32.zero
                   else v) y.

Definition set_diag (mismatch : tensor -> tensor -> result tensor)
                    (y diagonal : tensor) : result tensor :=
  match split_last2 (shape y) with
  | None => Raised ValueError
  | Some (lead, r, c) =>
      if shape_eqb (shape diagonal) (lead ++ [Nat.min r c])
      then Ok {| shape := shape y;
                 data := concat (map2 (set_diag_row c)
                                   (chunks (r * c) (numel lead) (data y))
                                   (chunks (Nat.min r c) (numel lead)
                                           (data diagonal))) |}
      else if length (shape diagonal) =? S (length lead)
           then mismatch y diagonal
           else Raised ValueError
  end.

(** Entry [i, j] of a matrix stored with [c] columns. *)
Definition entry (c : nat) (y : tensor) (i j : nat) : F32.t :=
  nth (i * c + j) (data y) F32.zero.

(** ** Session configuration messages (config.proto) *)

Inductive GlobalJitLevel : Type := DEFAULT | OFF | ON_1 | ON_2.

Record GPUOptions : Type := { allow_growth : bool }.

Record OptimizerOptions : Type := { global_jit_level : GlobalJitLevel }.

Record GraphOptions : Type := { optimizer_options : OptimizerOptions }.

Record ConfigProto : Type := {
  log_device_placement : bool;
  gpu_options : GPUOptions;
  graph_options : GraphOptions
}.

(** A freshly constructed message: every field at its proto3 default. *)
Definition ConfigProto_default : ConfigProto :=
  {| log_device_placement := false;
     gpu_options := {| allow_growth := false |};
     graph_options :=
       {| optimizer_options := {| global_jit_level := DEFAULT |} |} |}.

Definition set_log_device_placement (c : ConfigProto) (b : bool) : ConfigProto :=
  {| log_device_placement := b;
     gpu_options := gpu_options c;
     graph_options := graph_options c |}.

Definition set_gpu_options_allow_growth (c : ConfigProto) (b : bool)
  : ConfigProto :=
  {| log_device_placement := log_device_placement c;
     gpu_options := {| allow_growth := b |};
     graph_options := graph_options c |}.

Definition set_global_jit_level (c : ConfigProto) (l : GlobalJitLevel)
  : ConfigProto :=
  {| log_device_placement := log_device_placement c;
     gpu_options := gpu_options c;
     graph_options := {| optimizer_options := {| global_jit_level := l |} |} |}.

(** ** Distribution and bijector objects

    An object is the library constructor applied to the arguments it was
    built from; what the object computes ([log_prob], [forward]) belongs to
    the library. *)

Inductive bijector : Type :=
| SoftmaxCentered
| Affine (scale_tril : tensor)
| Invert (b : bijector).

Inductive distribution : Type :=
| Dirichlet (concentration : tensor)
| Normal (loc scale : tensor)
| Independent (d : distribution) (reinterpreted_batch_ndims : nat)
| TransformedDistribution (d : distribution) (b : bijector)
| WishartCholesky (df : Z) (scale : tensor)
                  (cholesky_input_output_matrices : bool)
| Categorical (logits : tensor)
| MixtureSameFamily (mixture_distribution components_distribution : distribution).


(** ** What an execution does, in order *)

Module Ext.

(** The external callables the notebook invokes. *)
Inductive name : Type :=
| plt_style_use
| tf_ConfigProto | tf_reset_default_graph | Session_close
| tf_InteractiveSession
| tfd_Dirichlet | tfb_SoftmaxCentered | tfb_Invert | tfb_Affine
| TransformedDistribution_init
| tf_ones_like | tfd_Normal | tfd_Independent
| tfd_fill_triangular | tf_matrix_diag_part | tf_abs | tf_linalg_set_diag
| np_ones | np_zeros | np_stack | np_eye | tf_ones | tfd_WishartCholesky
| print
| distribution_util_pad | tfd_Categorical | tfd_MixtureSameFamily
| Distribution_log_prob | tf_concat | tf_reduce_sum
| np_array | np_random_RandomState | RandomState_randint
| RandomState_randn | ndarray_astype
| tf_fill | tf_constant | tf_eye | distribution_util_fill_triangular_inverse
| tfp_mcmc_HamiltonianMonteCarlo | tfp_mcmc_sample_chain
| Bijector_forward | tf_to_float | tf_reduce_mean | Session_run
| sns_kdeplot | plt_title.

Definition eqb (a b : name) : bool :=
  match a, b with
  | plt_style_use, plt_style_use
  | tf_ConfigProto, tf_ConfigProto
  | tf_reset_default_graph, tf_reset_default_graph
  | Session_close, Session_close
  | tf_InteractiveSession, tf_InteractiveSession
  | tfd_Dirichlet, tfd_Dirichlet
  | tfb_SoftmaxCentered, tfb_SoftmaxCentered
  | tfb_Invert, tfb_Invert
  | tfb_Affine, tfb_Affine
  | TransformedDistribution_init, TransformedDistribution_init
  | tf_ones_like, tf_ones_like
  | tfd_Normal, tfd_Normal
  | tfd_Independent, tfd_Independent
  | tfd_fill_triangular, tfd_fill_triangular
  | tf_matrix_diag_part, tf_matrix_diag_part
  | tf_abs, tf_abs
  | tf_linalg_set_diag, tf_linalg_set_diag
  | np_ones, np_ones
  | np_zeros, np_zeros
  | np_stack, np_stack
  | np_eye, np_eye
  | tf_ones, tf_ones
  | tfd_WishartCholesky, tfd_WishartCholesky
  | print, print
  | distribution_util_pad, distribution_util_pad
  | tfd_Categorical, tfd_Categorical
  | tfd_MixtureSameFamily, tfd_MixtureSameFamily
  | Distribution_log_prob, Distribution_log_prob
  | tf_concat, tf_concat
  | tf_reduce_sum, tf_reduce_sum
  | np_array, np_array
  | np_random_RandomState, np_random_RandomState
  | RandomState_randint, RandomState_randint
  | RandomState_randn, RandomState_randn
  | ndarray_astype, ndarray_astype
  | tf_fill, tf_fill
  | tf_constant, tf_constant
  | tf_eye, tf_eye
  | distribution_util_fill_triangular_inverse,
    distribution_util_fill_triangular_inverse
  | tfp_mcmc_HamiltonianMonteCarlo, tfp_mcmc_HamiltonianMonteCarlo
  | tfp_mcmc_sample_chain, tfp_mcmc_sample_chain
  | Bijector_forward, Bijector_forward
  | tf_to_float, tf_to_float
  | tf_reduce_mean, tf_reduce_mean
  | Session_run, Session_run
  | sns_kdeplot, sns_kdeplot
  | plt_title, plt_title => true
  | _, _ => false
  end.

End Ext.

(** An executed step: a call of an external callable, or the binding of a
    global name. *)
Inductive event : Type :=
| Call (f : Ext.name)
| Bind (x : string).

(** A decimal literal [m * 10 ^ e] of the source text. *)
Definition decimal : Type := (Z * Z)%type.

(** A closure of the notebook as the library sees it: called on the
    library's state, it gives its result, the new state and the steps it
    executed. *)
Record HamiltonianMonteCarlo (St : Type) : Type := {
  target_log_prob_fn :
    list tensor -> St -> result tensor * St * list event;
  step_size : decimal;
  num_leapfrog_steps : nat
}.

Record KernelResults : Type := { is_accepted : bool_tensor }.

(** ** The external library *)

Class Library : Type := {
  tf_state : Type;
  Session : Type;
  RandomState : Type;
  tf_reset_default_graph : tf_state -> result unit * tf_state;
  tf_InteractiveSession : ConfigProto -> tf_state -> result Session * tf_state;
  Session_close : Session -> tf_state -> result unit * tf_state;
  Session_run :
    Session -> list tensor -> tf_state -> result (list tensor) * tf_state;
  log_prob : distribution -> tensor -> result tensor;
  forward : bijector -> tensor -> result tensor;
  reduce_sum_kernel : list F32.t -> F32.t;
  tf_reduce_mean : tensor -> option Z -> result tensor;
  fill_triangular_inverse : tensor -> result tensor;
  np_random_RandomState : Z -> RandomState;
  randint : RandomState -> Z -> Z -> nat -> result (list Z) * RandomState;
  randn : RandomState -> nat -> nat -> result tensor * RandomState;
  ndarray_getitem : tensor -> list Z -> result tensor;
  ndarray_add : tensor -> tensor -> result tensor;
  ndarray_slice : tensor -> nat -> nat -> result tensor;
  set_diag_mismatch : tensor -> tensor -> result tensor;
  sample_chain :
    nat -> nat -> HamiltonianMonteCarlo tf_state -> list tensor ->
    tf_state -> result (list tensor * KernelResults) * tf_state * list event
}.

(** ** The notebook *)

Section Notebook.

Context {L : Library}.

(** *** Execution state and the monad of executions *)

Record world : Type := {
  tf : tf_state;              (* the library's graphs and sessions *)
  trace : list event;         (* executed steps, oldest first *)
  sess : option Session       (* the Python global [sess], if bound *)
}.

Definition M (A : Type) : Type := world -> result A * world.

Definition ret {A} (a : A) : M A := fun w => (Ok a, w).

Definition raise {A} (e : exn) : M A := fun w => (Raised e, w).

Definition bind {A B} (m : M A) (k : A -> M B) : M B :=
  fun w =>
    match m w with
    | (Ok a, w') => k a w'
    | (Raised e, w') => (Raised e, w')
    end.

(** [try: m  except: handler] (a bare [except] catches everything). *)
Definition try_except {A} (m : M A) (handler : exn -> M A) : M A :=
  fun w =>
    match m w with
    | (Ok a, w') => (Ok a, w')
    | (Raised e, w') => handler e w'
    end.

(** An operator or indexing expression: no named call. *)
Definition lift {A} (r : result A) : M A := fun w => (r, w).

Definition log (e : event) : M unit :=
  fun w => (Ok tt, {| tf := tf w; trace := trace w ++ [e]; sess := sess w |}).

(** A call of the external callable [f]. *)
Definition call {A} (f : Ext.name) (op : tf_state -> result A * tf_state)
  : M A :=
  fun w =>
    let (r, s) := op (tf w) in
    (r, {| tf := s; trace := trace w ++ [Call f]; sess := sess w |}).

Definition call_pure {A} (f : Ext.name) (r : result A) : M A :=
  call f (fun s => (r, s)).

(** [x = m] at top level. *)
Definition assign {A} (x : string) (m : M A) : M A :=
  bind m (fun a => bind (log (Bind x)) (fun _ => ret a)).

Definition read_sess : M Session :=
  fun w =>
    match sess w with
    | Some s => (Ok s, w)
    | None => (Raised NameError, w)
    end.

Definition write_sess (s : Session) : M unit :=
  fun w =>
    (Ok tt, {| tf := tf w; trace := trace w ++ [Bind "sess"];
               sess := Some s |}).

(** The function a library routine receives when handed a closure: called
    back on the library's state, the closure runs there, with the globals
    of the notebook, and what it executes is reported to the caller. *)
Definition closure_for_library {A B} (globals : option Session) (f : A -> M B)
  : A -> tf_state -> result B * tf_state * list event :=
  fun a s =>
    let (r, w') := f a {| tf := s; trace := []; sess := globals |} in
    (r, tf w', trace w').

Definition callback {A B} (f : A -> M B)
  : M (A -> tf_state -> result B * tf_state * list event) :=
  fun w => (Ok (closure_for_library (sess w) f), w).

(** A call of the external callable [f] that calls closures back: the
    steps executed inside the call follow the call. *)
Definition call_with_callbacks {A} (f : Ext.name)
           (op : tf_state -> result A * tf_state * list event) : M A :=
  fun w =>
    let '(r, s, inside) := op (tf w) in
    (r, {| tf := s; trace := trace w ++ [Call f] ++ inside; sess := sess w |}).

Definition value {A} (m : M A) (w : world) : result A := fst (m w).
Definition after {A} (m : M A) (w : world) : world := snd (m w).

Notation "x <- m ;; k" := (bind m (fun x => k))
  (at level 61, m at next level, right associativity).
Notation "m ;; k" := (bind m (fun _ => k))
  (at level 61, right associativity).

(** *** Cell 7: session helpers *)

Definition session_options (enable_gpu_ram_resizing enable_xla : bool)
  : M ConfigProto :=
  config <- call_pure Ext.tf_ConfigProto (Ok ConfigProto_default) ;;
  let config := set_log_device_placement config true in
  let config :=
    if enable_gpu_ram_resizing
    then set_gpu_options_allow_growth config true
    else config in
  let config :=
    if enable_xla then set_global_jit_level config ON_1 else config in
  ret config.

(** [if config is None: config = session_options()] *)
Definition effective_config (config : option ConfigProto) : M ConfigProto :=
  match config with
  | None => session_options true true
  | Some c => ret c
  end.

Definition reset_sess (config : option ConfigProto) : M unit :=
  config <- effective_config config ;;
  call Ext.tf_reset_default_graph tf_reset_default_graph ;;
  try_except
    (s <- read_sess ;; call Ext.Session_close (Session_close s))
    (fun _ => ret tt) ;;
  s <- call Ext.tf_InteractiveSession (tf_InteractiveSession config) ;;
  write_sess s.

(** *** Cell 11: unconstrained representation *)

Definition UnconstrainedDirichlet (concentration : tensor) : M distribution :=
  d <- call_pure Ext.tfd_Dirichlet (Ok (Dirichlet concentration)) ;;
  sc <- call_pure Ext.tfb_SoftmaxCentered (Ok SoftmaxCentered) ;;
  b <- call_pure Ext.tfb_Invert (Ok (Invert sc)) ;;
  call_pure Ext.TransformedDistribution_init
            (Ok (TransformedDistribution d b)).

Definition MVNInverseTriL (loc precision_tril : tensor) : M distribution :=
  ones <- call_pure Ext.tf_ones_like (Ok (tf_ones_like loc)) ;;
  n <- call_pure Ext.tfd_Normal (Ok (Normal loc ones)) ;;
  d <- call_pure Ext.tfd_Independent (Ok (Independent n 1)) ;;
  a <- call_pure Ext.tfb_Affine (Ok (Affine precision_tril)) ;;
  b <- call_pure Ext.tfb_Invert (Ok (Invert a)) ;;
  call_pure Ext.TransformedDistribution_init
            (Ok (TransformedDistribution d b)).

(** [tf.abs] as a callable, the default [transform_fn]. *)
Definition abs_fn (x : tensor) : M tensor :=
  call_pure Ext.tf_abs (Ok (tf_abs x)).

Definition make_tril (x : tensor) (transform_fn : option (tensor -> M tensor))
  : M tensor :=
  y <- call_pure Ext.tfd_fill_triangular (fill_triangular x) ;;
  match transform_fn with
  | None => ret y
  | Some transform_fn =>
      d <- call_pure Ext.tf_matrix_diag_part (matrix_diag_part y) ;;
      new_diag <- transform_fn d ;;
      call_pure Ext.tf_linalg_set_diag (set_diag set_diag_mismatch y new_diag)
  end.

(** *** Cells 14 and 15: the priors *)

Definition dims : nat := 2.
Definition components : nat := 3.

Record priors : Type := {
  rv_logits : distribution;
  rv_loc : distribution;
  rv_precision : distribution
}.

Definition model_specification : M priors :=
  rv_logits <- assign "rv_logits"
    (ones <- call_pure Ext.np_ones (Ok (np_ones [components])) ;;
     UnconstrainedDirichlet (ndarray_truediv ones (F32.of_Z 10))) ;;
  rv_loc <- assign "rv_loc"
    (a <- call_pure Ext.np_ones (Ok (np_ones [dims])) ;;
     b <- call_pure Ext.np_zeros (Ok (np_zeros [dims])) ;;
     c <- call_pure Ext.np_ones (Ok (np_ones [dims])) ;;
     loc <- call_pure Ext.np_stack (np_stack [ndarray_neg a; b; c]) ;;
     scale <- call_pure Ext.tf_ones (Ok (tf_ones [components; dims])) ;;
     n <- call_pure Ext.tfd_Normal (Ok (Normal loc scale)) ;;
     call_pure Ext.tfd_Independent (Ok (Independent n 1))) ;;
  rv_precision <- assign "rv_precision"
    (e <- call_pure Ext.np_eye (Ok (np_eye dims)) ;;
     scale <- call_pure Ext.np_stack (np_stack (repeat e components)) ;;
     call_pure Ext.tfd_WishartCholesky (Ok (WishartCholesky 5 scale true))) ;;
  ret {| rv_logits := rv_logits; rv_loc := rv_loc;
         rv_precision := rv_precision |}.

(** *** Cell 18: the joint log-density; the priors are globals *)

Section Model.

Variable prior : priors.

Definition joint_log_prob
           (observations logits loc flat_chol_precision : tensor)
  : M tensor :=
  chol_precision <- make_tril flat_chol_precision (Some abs_fn) ;;
  padded <- call_pure Ext.distribution_util_pad
                      (pad logits false true F32.zero 1) ;;
  mixture_distribution <-
    call_pure Ext.tfd_Categorical (Ok (Categorical padded)) ;;
  components_distribution <- MVNInverseTriL loc chol_precision ;;
  rv_observations <-
    call_pure Ext.tfd_MixtureSameFamily
      (Ok (MixtureSameFamily mixture_distribution
                             components_distribution)) ;;
  p_observations <-
    call_pure Ext.Distribution_log_prob
              (log_prob rv_observations observations) ;;
  p_logits <-
    call_pure Ext.Distribution_log_prob
              (log_prob (rv_logits prior) logits) ;;
  p_loc <-
    call_pure Ext.Distribution_log_prob (log_prob (rv_loc prior) loc) ;;
  p_precision <-
    call_pure Ext.Distribution_log_prob
              (log_prob (rv_precision prior) chol_precision) ;;
  parts <-
    call_pure Ext.tf_concat
      (tf_concat_last
         [p_observations; expand_last p_logits; p_loc; p_precision]) ;;
  call_pure Ext.tf_reduce_sum (tf_reduce_sum_last reduce_sum_kernel parts).

(** *** Cell 24: [lambda *args: joint_log_prob(observations, *args)] *)

Variable observations : tensor.

Definition unnormalized_posterior_log_prob (args : list tensor) : M tensor :=
  match args with
  | [logits; loc; flat_chol_precision] =>
      joint_log_prob observations logits loc flat_chol_precision
  | _ => raise TypeError
  end.

End Model.

(** *** Cell 21: the training data *)

Definition true_loc_literal : list (list Z) := [[-2; -2]; [0; 0]; [2; 2]]%Z.

Definition generate_training_data : M tensor :=
  num_samples <- assign "num_samples" (ret 1000) ;;
  true_loc <- assign "true_loc"
    (call_pure Ext.np_array (Ok (np_array2 true_loc_literal))) ;;
  random <- assign "random"
    (call_pure Ext.np_random_RandomState (Ok (np_random_RandomState 42))) ;;
  let drawn := randint random 0 (Z.of_nat components) num_samples in
  true_hidden_component <- assign "true_hidden_component"
    (call_pure Ext.RandomState_randint (fst drawn)) ;;
  assign "observations"
    (centres <- lift (ndarray_getitem true_loc true_hidden_component) ;;
     noise <- call_pure Ext.RandomState_randn
                        (fst (randn (snd drawn) num_samples dims)) ;;
     noise <- call_pure Ext.ndarray_astype
                        (Ok (ndarray_astype_float32 noise)) ;;
     lift (ndarray_add centres noise)).

(** *** Cell 24: the chain's starting point *)

Definition initial_state : M (list tensor) :=
  assign "initial_state"
    (zero <- call_pure Ext.np_array (Ok (np_array0 0)) ;;
     logits <- call_pure Ext.tf_fill (tf_fill [components - 1] zero) ;;
     a <- call_pure Ext.np_array (Ok (np_array2 true_loc_literal)) ;;
     loc <- call_pure Ext.tf_constant (Ok (tf_constant a)) ;;
     eye <- call_pure Ext.tf_eye (Ok (tf_eye dims [components])) ;;
     flat_chol_precision <-
       call_pure Ext.distribution_util_fill_triangular_inverse
                 (fill_triangular_inverse eye) ;;
     ret [logits; loc; flat_chol_precision]).

(** *** Cell 25: the chain *)

Record chain : Type := {
  chain_logits : tensor;
  chain_loc : tensor;
  chain_flat_chol_precision : tensor;
  kernel_results : KernelResults
}.

Definition run_chain (target : list tensor -> M tensor)
                     (current_state : list tensor) : M chain :=
  target_log_prob_fn <- callback target ;;
  kernel <- call_pure Ext.tfp_mcmc_HamiltonianMonteCarlo
    (Ok {| target_log_prob_fn := target_log_prob_fn;
           step_size := (249, -4)%Z;
           num_leapfrog_steps := 5 |}) ;;
  out <- call_with_callbacks Ext.tfp_mcmc_sample_chain
              (sample_chain 2000 500 kernel current_state) ;;
  match out with
  | ([logits; loc; flat_chol_precision], kernel_results) =>
      log (Bind "logits") ;; log (Bind "loc") ;;
      log (Bind "flat_chol_precision") ;; log (Bind "kernel_results") ;;
      ret {| chain_logits := logits; chain_loc := loc;
             chain_flat_chol_precision := flat_chol_precision;
             kernel_results := kernel_results |}
  | _ => raise ValueError
  end.

(** *** Cell 26: the quantities to report *)

Record reductions : Type := {
  acceptance_rate : tensor;
  mean_logits : tensor;
  mean_probs : tensor;
  mean_loc : tensor;
  mean_chol_precision : tensor;
  probs : tensor;
  chol_precision : tensor
}.

Definition reduce (c : chain) : M reductions :=
  probs <- assign "probs"
    (b <- call_pure Ext.tfb_SoftmaxCentered (Ok SoftmaxCentered) ;;
     call_pure Ext.Bijector_forward (forward b (chain_logits c))) ;;
  chol_precision <- assign "chol_precision"
    (make_tril (chain_flat_chol_precision c) (Some abs_fn)) ;;
  acceptance_rate <- assign "acceptance_rate"
    (a <- call_pure Ext.tf_to_float
                    (Ok (tf_to_float (is_accepted (kernel_results c)))) ;;
     call_pure Ext.tf_reduce_mean (tf_reduce_mean a None)) ;;
  mean_logits <- assign "mean_logits"
    (call_pure Ext.tf_reduce_mean
               (tf_reduce_mean (chain_logits c) (Some 0%Z))) ;;
  mean_probs <- assign "mean_probs"
    (call_pure Ext.tf_reduce_mean (tf_reduce_mean probs (Some 0%Z))) ;;
  mean_loc <- assign "mean_loc"
    (call_pure Ext.tf_reduce_mean
               (tf_reduce_mean (chain_loc c) (Some 0%Z))) ;;
  mean_chol_precision <- assign "mean_chol_precision"
    (call_pure Ext.tf_reduce_mean
               (tf_reduce_mean chol_precision (Some 0%Z))) ;;
  ret {| acceptance_rate := acceptance_rate; mean_logits := mean_logits;
         mean_probs := mean_probs; mean_loc := mean_loc;
         mean_chol_precision := mean_chol_precision;
         probs := probs; chol_precision := chol_precision |}.

(** *** Cell 29: execution in the session *)

Definition fetches (c : chain) (r : reductions) : list tensor :=
  [acceptance_rate r; mean_logits r; mean_probs r; mean_loc r;
   mean_chol_precision r; probs r; chain_loc c; chol_precision r].

Definition execute (c : chain) (r : reductions) : M (list tensor) :=
  s <- read_sess ;;
  out <- call Ext.Session_run (Session_run s (fetches c r)) ;;
  match out with
  | [_; _; _; _; _; _; _; _] =>
      log (Bind "acceptance_rate_") ;; log (Bind "mean_logits_") ;;
      log (Bind "mean_probs_") ;; log (Bind "mean_loc_") ;;
      log (Bind "mean_chol_precision_") ;; log (Bind "probs_") ;;
      log (Bind "loc_") ;; log (Bind "chol_precision_") ;;
      ret out
  | _ => raise ValueError
  end.

(** *** Cells 16, 30 and 31: output *)

Definition print : M unit := call_pure Ext.print (Ok tt).

Definition print_priors : M unit := print ;; print ;; print.

Definition print_posterior_means : M unit :=
  print ;; print ;; print ;; print ;; print.

Definition kdeplot (loc_ : tensor) (k : nat) : M unit :=
  assign "ax"
    (x <- lift (ndarray_slice loc_ k 0) ;;
     y <- lift (ndarray_slice loc_ k 1) ;;
     call_pure Ext.sns_kdeplot (Ok tt)).

Definition plot (loc_ : tensor) : M unit :=
  kdeplot loc_ 0 ;; kdeplot loc_ 1 ;; kdeplot loc_ 2 ;;
  call_pure Ext.plt_title (Ok tt).

(** *** The notebook, top to bottom *)

Definition def (x : string) : M unit := log (Bind x).

(** Cells 5 and 7: imports, plot style, session helpers, first session. *)
Definition open_session : M unit :=
  call_pure Ext.plt_style_use (Ok tt) ;;
  def "tfd" ;; def "tfb" ;;
  def "session_options" ;; def "reset_sess" ;;
  reset_sess None.

(** Cells 11 to 31. *)
Definition infer_and_report : M (list tensor) :=
  def "UnconstrainedDirichlet" ;; def "MVNInverseTriL" ;; def "make_tril" ;;
  def "dtype" ;; def "dims" ;; def "components" ;;
  prior <- model_specification ;;
  print_priors ;;
  def "joint_log_prob" ;;
  observations <- generate_training_data ;;
  def "unnormalized_posterior_log_prob" ;;
  state <- initial_state ;;
  c <- run_chain (unnormalized_posterior_log_prob prior observations) state ;;
  r <- reduce c ;;
  out <- execute c r ;;
  print_posterior_means ;;
  plot (nth 6 out (scalar F32.zero)) ;;
  ret out.

Definition notebook : M (list tensor) :=
  open_session ;; infer_and_report.

End Notebook.

(** ** Vocabulary for statements about executions *)

Definition event_eqb (a b : event) : bool :=
  match a, b with
  | Call f, Call g => Ext.eqb f g
  | Bind x, Bind y => String.eqb x y
  | _, _ => false
  end.

Definition is_call (f : Ext.name) (e : event) : bool := event_eqb (Call f) e.

Definition occurrences (e : event) (tr : list event) : nat :=
  length (filter (event_eqb e) tr).

(** Position of the first occurrence. *)
Fixpoint position (e : event) (tr : list event) : option nat :=
  match tr with
  | [] => None
  | e' :: tr' =>
      if event_eqb e e' then Some 0 else option_map S (position e tr')
  end.

(** Every call of [f] comes after every call of [g]. *)
Definition only_after (f g : Ext.name) (tr : list event) : Prop :=
  forall i j,
    nth_error tr i = Some (Call f) -> nth_error tr j = Some (Call g) -> j < i.

(** The calls that reduce the chain, run the session, print or plot. *)
Definition is_reduction (e : event) : bool :=
  is_call Ext.tf_reduce_mean e || is_call Ext.tf_to_float e
  || is_call Ext.Bijector_forward e.

Definition is_print (e : event) : bool := is_call Ext.print e.

Definition is_plot (e : event) : bool :=
  is_call Ext.sns_kdeplot e || is_call Ext.plt_title e.

Definition is_run (e : event) : bool := is_call Ext.Session_run e.

Definition bound_names (tr : list event) : list string :=
  flat_map (fun e => match e with Bind x => [x] | Call _ => [] end) tr.

(** The steps of [reset_sess]; [Session.close] is called when [sess] is
    bound. *)
Definition reset_sess_events (config_given sess_bound : bool) : list event :=
  (if config_given then [] else [Call Ext.tf_ConfigProto])
  ++ [Call Ext.tf_reset_default_graph]
  ++ (if sess_bound then [Call Ext.Session_close] else [])
  ++ [Call Ext.tf_InteractiveSession; Bind "sess"].

Definition make_tril_events : list event :=
  [Call Ext.tfd_fill_triangular; Call Ext.tf_matrix_diag_part;
   Call Ext.tf_abs; Call Ext.tf_linalg_set_diag].

Definition MVNInverseTriL_events : list event :=
  [Call Ext.tf_ones_like; Call Ext.tfd_Normal; Call Ext.tfd_Independent;
   Call Ext.tfb_Affine; Call Ext.tfb_Invert;
   Call Ext.TransformedDistribution_init].

Definition joint_log_prob_events : list event :=
  make_tril_events
  ++ [Call Ext.distribution_util_pad; Call Ext.tfd_Categorical]
  ++ MVNInverseTriL_events
  ++ [Call Ext.tfd_MixtureSameFamily;
      Call Ext.Distribution_log_prob; Call Ext.Distribution_log_prob;
      Call Ext.Distribution_log_prob; Call Ext.Distribution_log_prob;
      Call Ext.tf_concat; Call Ext.tf_reduce_sum].

(** The steps of the notebook, cell by cell. *)
Definition setup_events (sess_bound : bool) : list event :=
  [Call Ext.plt_style_use; Bind "tfd"; Bind "tfb";
   Bind "session_options"; Bind "reset_sess"]
  ++ reset_sess_events false sess_bound
  ++ [Bind "UnconstrainedDirichlet"; Bind "MVNInverseTriL"; Bind "make_tril";
      Bind "dtype"; Bind "dims"; Bind "components"].

Definition prior_events : list event :=
  [Call Ext.np_ones; Call Ext.tfd_Dirichlet; Call Ext.tfb_SoftmaxCentered;
   Call Ext.tfb_Invert; Call Ext.TransformedDistribution_init;
   Bind "rv_logits";
   Call Ext.np_ones; Call Ext.np_zeros; Call Ext.np_ones;
   Call Ext.np_stack; Call Ext.tf_ones; Call Ext.tfd_Normal;
   Call Ext.tfd_Independent; Bind "rv_loc";
   Call Ext.np_eye; Call Ext.np_stack; Call Ext.tfd_WishartCholesky;
   Bind "rv_precision"].

Definition print_prior_events : list event :=
  [Call Ext.print; Call Ext.print; Call Ext.print].

Definition data_events : list event :=
  [Bind "num_samples"; Call Ext.np_array; Bind "true_loc";
   Call Ext.np_random_RandomState; Bind "random";
   Call Ext.RandomState_randint; Bind "true_hidden_component";
   Call Ext.RandomState_randn; Call Ext.ndarray_astype; Bind "observations"].

Definition initial_state_events : list event :=
  [Call Ext.np_array; Call Ext.tf_fill; Call Ext.np_array;
   Call Ext.tf_constant; Call Ext.tf_eye;
   Call Ext.distribution_util_fill_triangular_inverse; Bind "initial_state"].

Definition chain_binding_events : list event :=
  [Bind "logits"; Bind "loc"; Bind "flat_chol_precision";
   Bind "kernel_results"].

Definition reduce_events : list event :=
  [Call Ext.tfb_SoftmaxCentered; Call Ext.Bijector_forward; Bind "probs"]
  ++ make_tril_events ++ [Bind "chol_precision"]
  ++ [Call Ext.tf_to_float; Call Ext.tf_reduce_mean; Bind "acceptance_rate";
      Call Ext.tf_reduce_mean; Bind "mean_logits";
      Call Ext.tf_reduce_mean; Bind "mean_probs";
      Call Ext.tf_reduce_mean; Bind "mean_loc";
      Call Ext.tf_reduce_mean; Bind "mean_chol_precision"].

Definition execute_events : list event :=
  [Call Ext.Session_run;
   Bind "acceptance_rate_"; Bind "mean_logits_"; Bind "mean_probs_";
   Bind "mean_loc_"; Bind "mean_chol_precision_"; Bind "probs_";
   Bind "loc_"; Bind "chol_precision_"].

Definition print_posterior_events : list event :=
  [Call Ext.print; Call Ext.print; Call Ext.print; Call Ext.print;
   Call Ext.print].

Definition plot_events : list event :=
  [Call Ext.sns_kdeplot; Bind "ax"; Call Ext.sns_kdeplot; Bind "ax";
   Call Ext.sns_kdeplot; Bind "ax"; Call Ext.plt_title].

(** What precedes and what follows the call of [tfp.mcmc.sample_chain]. *)
Definition events_before_sampling (sess_bound : bool) : list event :=
  setup_events sess_bound ++ prior_events ++ print_prior_events
  ++ [Bind "joint_log_prob"] ++ data_events
  ++ [Bind "unnormalized_posterior_log_prob"] ++ initial_state_events
  ++ [Call Ext.tfp_mcmc_HamiltonianMonteCarlo].

Definition events_after_sampling : list event :=
  chain_binding_events ++ reduce_events ++ execute_events
  ++ print_posterior_events ++ plot_events.

(** The configuration of [session_options()], with its default flags. *)
Definition session_options_default : ConfigProto :=
  {| log_device_placement := true;
     gpu_options := {| allow_growth := true |};
     graph_options :=
       {| optimizer_options := {| global_jit_level := ON_1 |} |} |}.

(** The priors of cells 14 and 15. *)
Definition specified_priors : priors :=
  let tenth := F32.div F32.one (F32.of_Z 10) in
  let one := F32.one in
  let zero := F32.zero in
  let minus_one := F32.opp F32.one in
  {| rv_logits :=
       TransformedDistribution
         (Dirichlet {| shape := [3]; data := [tenth; tenth; tenth] |})
         (Invert SoftmaxCentered);
     rv_loc :=
       Independent
         (Normal {| shape := [3; 2];
                    data := [minus_one; minus_one; zero; zero; one; one] |}
                 {| shape := [3; 2];
                    data := [one; one; one; one; one; one] |})
         1;
     rv_precision :=
       WishartCholesky
         5
         {| shape := [3; 2; 2];
            data := [one; zero; zero; one;
                     one; zero; zero; one;
                     one; zero; zero; one] |}
         true |}.

(** The starting point of the chain (cell 24), given the flat precision
    factor the library computes. *)
Definition starting_point (flat_chol_precision : tensor) : list tensor :=
  [{| shape := [components - 1]; data := [F32.zero; F32.zero] |};
   tf_constant (np_array2 true_loc_literal);
   flat_chol_precision].

(** Whether an optional argument is given, or a global name bound. *)
Definition is_bound {A} (s : option A) : bool :=
  match s with Some _ => true | None => false end.

Section Steps.

Context {L : Library}.

(** From [w], the execution of [m] performs the steps [tr] in order: all
    of them if it returns, an initial part of them if it raises. *)
Definition emits_at {A} (m : M A) (w : world) (tr : list event) : Prop :=
  exists done rest,
    tr = done ++ rest /\
    trace (after m w) = trace w ++ done /\
    (forall a, value m w = Ok a -> rest = []).

Definition emits {A} (m : M A) (tr : list event) : Prop :=
  forall w, emits_at m w tr.

(** From [w], [m] performs [before], then what a library routine reports
    of the closures it called back, then [behind]. *)
Definition emits_around {A} (m : M A) (w : world)
           (before behind : list event) : Prop :=
  exists inside, emits_at m w (before ++ inside ++ behind).

(** [m] never rebinds the global [sess]. *)
Definition keeps_sess {A} (m : M A) : Prop :=
  forall w, sess (after m w) = sess w.

(** What the library returns in a run of the notebook in which every
    call of it returns: the session [new] and the state [opened] it is
    constructed in, the [observations], the flat precision factor [flat]
    of the starting point, the chain [c], the steps [inside] and the state
    [sampled] reported by [tfp.mcmc.sample_chain] on the kernel of the
    closure over the priors and these observations, the reductions [r]
    (the flat precision of the chain has a triangular last axis, so that
    [make_tril] returns), and the eight arrays [out] and the state [final]
    of [sess.run]. *)
Definition library_returns (w : world)
           (new : Session) (opened : tf_state) (observations flat : tensor)
           (c : chain) (inside : list event) (sampled : tf_state)
           (r : reductions) (out : list tensor) (final : tf_state) : Prop :=
  (exists reset,
      tf_reset_default_graph (tf w) = (Ok tt, reset) /\
      tf_InteractiveSession
        session_options_default
        (match sess w with
         | None => reset
         | Some old => snd (Session_close old reset)
         end) = (Ok new, opened)) /\
  (exists hidden random centres noise random',
      randint (np_random_RandomState 42) 0 3 1000 = (Ok hidden, random) /\
      ndarray_getitem (np_array2 true_loc_literal) hidden = Ok centres /\
      randn random 1000 2 = (Ok noise, random') /\
      ndarray_add centres (ndarray_astype_float32 noise) = Ok observations) /\
  fill_triangular_inverse (tf_eye dims [components]) = Ok flat /\
  sample_chain
    2000 500
    {| target_log_prob_fn :=
         closure_for_library
           (Some new)
           (unnormalized_posterior_log_prob specified_priors observations);
       step_size := (249, -4)%Z;
       num_leapfrog_steps := 5 |}
    (starting_point flat) opened
  = (Ok ([chain_logits c; chain_loc c; chain_flat_chol_precision c],
         kernel_results c),
     sampled, inside) /\
  forward SoftmaxCentered (chain_logits c) = Ok (probs r) /\
  (forall w', value (make_tril (chain_flat_chol_precision c) (Some abs_fn)) w'
              = Ok (chol_precision r)) /\
  tf_reduce_mean (tf_to_float (is_accepted (kernel_results c))) None
  = Ok (acceptance_rate r) /\
  tf_reduce_mean (chain_logits c) (Some 0%Z) = Ok (mean_logits r) /\
  tf_reduce_mean (probs r) (Some 0%Z) = Ok (mean_probs r) /\
  tf_reduce_mean (chain_loc c) (Some 0%Z) = Ok (mean_loc r) /\
  tf_reduce_mean (chol_precision r) (Some 0%Z) = Ok (mean_chol_precision r) /\
  Session_run new (fetches c r) sampled = (Ok out, final) /\
  length out = 8 /\
  (forall k i, k < components -> i < dims ->
               exists a, ndarray_slice (nth 6 out (scalar F32.zero)) k i = Ok a).


End Steps.

Declare Scope notebook_scope.
Delimit Scope notebook_scope with notebook.
Notation "x <- m ;; k" := (bind m (fun x => k))
  (at level 61, m at next level, right associativity) : notebook_scope.

(** ** A small implementation of the library, to run the code on concrete
    inputs *)

Module Small.

Definition left_sum (l : list F32.t) : F32.t :=
  fold_left (SFadd F32.prec F32.emax) l F32.zero.

Definition zeros (n : nat) : tensor := vector (repeat F32.zero n).

(** A density that is 1 everywhere: one log-density per batch member. *)
Definition flat_log_prob (d : distribution) (x : tensor) : result tensor :=
  match d with
  | TransformedDistribution (Dirichlet _) _ => Ok (scalar F32.zero)
  | _ => Ok (zeros (hd 0 (shape x)))
  end.

(** Zeros of the shape of the flattened triangles of [x]. *)
Definition flat_zeros (x : tensor) : result tensor :=
  match split_last2 (shape x) with
  | Some (lead, r, _) => Ok (np_zeros (lead ++ [r * (r + 1) / 2]))
  | None => Raised ValueError
  end.

(** A chain that does not move: the target is evaluated once, at the
    starting point, and every state is accepted. *)
Definition still_chain (num_results num_burnin_steps : nat)
           (kernel : HamiltonianMonteCarlo nat) (current_state : list tensor)
           (s : nat)
  : result (list tensor * KernelResults) * nat * list event :=
  match target_log_prob_fn kernel current_state s with
  | (Ok _, s', inside) =>
      (Ok (current_state,
           {| is_accepted := {| bshape := []; bdata := [true] |} |}),
       s', inside)
  | (Raised e, s', inside) => (Raised e, s', inside)
  end.

#[export] Instance library : Library := {|
  tf_state := nat;
  Session := ConfigProto;
  RandomState := unit;
  tf_reset_default_graph := fun s => (Ok tt, S s);
  tf_InteractiveSession := fun c s => (Ok c, s);
  Session_close := fun _ s => (Raised (LibraryError 0), s);
  Session_run := fun _ fetches s => (Ok fetches, s);
  log_prob := flat_log_prob;
  forward := fun _ x => Ok x;
  reduce_sum_kernel := left_sum;
  tf_reduce_mean := fun x _ => Ok x;
  fill_triangular_inverse := flat_zeros;
  np_random_RandomState := fun _ => tt;
  randint := fun r _ _ n => (Ok (repeat 0%Z n), r);
  randn := fun r n d => (Ok (np_zeros [n; d]), r);
  ndarray_getitem := fun a _ => Ok a;
  ndarray_add := fun a _ => Ok a;
  ndarray_slice := fun a _ _ => Ok a;
  set_diag_mismatch := fun _ _ => Raised ValueError;
  sample_chain := still_chain
|}.

Definition world0 : world :=
  {| tf := 0; trace := []; sess := None |}.

(** A state in which [sess] is bound to a session whose [close] raises. *)
Definition world1 : world :=
  {| tf := 0; trace := []; sess := Some ConfigProto_default |}.

End Small.

(** ** An implementation whose session calls fail on demand: the graph
    reset raises in state 1, the session constructor in state 2, and
    [close] always returns. *)

Module Faulty.

Definition library : Library := {|
  tf_state := nat;
  Session := ConfigProto;
  RandomState := unit;
  tf_reset_default_graph :=
    fun s => if s =? 1 then (Raised (LibraryError 1), s) else (Ok tt, s);
  tf_InteractiveSession :=
    fun c s => if s =? 2 then (Raised (LibraryError 2), s) else (Ok c, s);
  Session_close := fun _ s => (Ok tt, s);
  Session_run := fun _ fetches s => (Ok fetches, s);
  log_prob := fun _ x => Ok x;
  forward := fun _ x => Ok x;
  reduce_sum_kernel := Small.left_sum;
  tf_reduce_mean := fun x _ => Ok x;
  fill_triangular_inverse := Small.flat_zeros;
  np_random_RandomState := fun _ => tt;
  randint := fun r _ _ n => (Ok (repeat 0%Z n), r);
  randn := fun r n d => (Ok (np_zeros [n; d]), r);
  ndarray_getitem := fun a _ => Ok a;
  ndarray_add := fun a _ => Ok a;
  ndarray_slice := fun a _ _ => Ok a;
  set_diag_mismatch := fun y _ => Ok y;
  sample_chain := Small.still_chain
|}.

(** [sess] is bound and the library is in state [s]. *)
Definition bound_world (s : nat) : @world library :=
  @Build_world library s [] (Some ConfigProto_default).

End Faulty.

(** ** Lists, chunks and indices *)

Section ListFacts.

Context {A B : Type}.

Lemma length_mapi (f : nat -> A -> B) (l : list A) :
  length (mapi f l) = length l.
Proof.
  unfold mapi.
  rewrite length_map, length_combine, length_seq.
  apply Nat.min_id.
Qed.

Lemma nth_mapi_from (f : nat -> A -> B) (l : list A) (s k : nat) (a : A) (b : B) :
  k < length l ->
  nth k (map (fun p => f (fst p) (snd p)) (combine (seq s (length l)) l)) b
  = f (s + k) (nth k l a).
Proof.
  revert s k.
  induction l as [|x l IH]; intros s k Hk; simpl in *.
  - lia.
  - destruct k as [|k].
    + now rewrite Nat.add_0_r.
    + rewrite IH by lia. f_equal. lia.
Qed.

Lemma nth_mapi (f : nat -> A -> B) (l : list A) (k : nat) (a : A) (b : B) :
  k < length l -> nth k (mapi f l) b = f k (nth k l a).
Proof.
  intros Hk. unfold mapi. now rewrite nth_mapi_from with (a := a).
Qed.

Lemma chunks_one (d : nat) (l : list A) :
  length l = d -> chunks d 1 l = [l].
Proof.
  intros <-. simpl. now rewrite firstn_all.
Qed.

End ListFacts.

Lemma split_last_snoc (lead : list nat) (d : nat) :
  split_last (lead ++ [d]) = Some (lead, d).
Proof.
  unfold split_last. rewrite rev_app_distr. simpl. now rewrite rev_involutive.
Qed.

Lemma split_last2_snoc (lead : list nat) (r c : nat) :
  split_last2 (lead ++ [r; c]) = Some (lead, r, c).
Proof.
  unfold split_last2. rewrite rev_app_distr. simpl. now rewrite rev_involutive.
Qed.

Lemma shape_eqb_refl (s : list nat) : shape_eqb s s = true.
Proof.
  induction s as [|a s IH]; [reflexivity|].
  cbn. now rewrite Nat.eqb_refl, IH.
Qed.

Lemma index_div (d i j : nat) : j < d -> (i * d + j) / d = i.
Proof.
  intros Hj. symmetry. apply Nat.div_unique with (r := j); lia.
Qed.

Lemma index_mod (d i j : nat) : j < d -> (i * d + j) mod d = j.
Proof.
  intros Hj. symmetry. apply Nat.mod_unique with (q := i); lia.
Qed.

Lemma index_lt (d i j : nat) : i < d -> j < d -> i * d + j < d * d.
Proof. nia. Qed.

(** ** Triangular numbers *)

Lemma triangular_double (d : nat) : 2 * (d * (d + 1) / 2) = d * (d + 1).
Proof.
  induction d as [|d IH].
  - reflexivity.
  - replace (S d * (S d + 1)) with (d * (d + 1) + (d + 1) * 2) by lia.
    rewrite Nat.div_add by lia. lia.
Qed.

Lemma triangular_root_complete (d : nat) :
  triangular_root (d * (d + 1) / 2) = Some d.
Proof.
  unfold triangular_root.
  pose proof (triangular_double d) as H2.
  replace (8 * (d * (d + 1) / 2) + 1) with ((2 * d + 1) * (2 * d + 1)) by lia.
  rewrite Nat.sqrt_square.
  replace (2 * d + 1 - 1) with (d * 2) by lia.
  rewrite Nat.div_mul by lia.
  now rewrite Nat.eqb_refl.
Qed.

(** ** [fill_triangular], [matrix_diag_part], [set_diag] on one matrix *)

Lemma length_fill_triangular_row (d : nat) (x : list F32.t) :
  length x = d * (d + 1) / 2 -> length (fill_triangular_row d x) = d * d.
Proof.
  intros Hx. pose proof (triangular_double d) as H2.
  unfold fill_triangular_row, matrix_band_lower.
  rewrite length_mapi, length_app, length_skipn, length_rev. nia.
Qed.

Lemma fill_triangular_vector (d : nat) (x : list F32.t) :
  length x = d * (d + 1) / 2 ->
  fill_triangular (vector x)
  = Ok {| shape := [d; d]; data := fill_triangular_row d x |}.
Proof.
  intros Hx. unfold fill_triangular, vector. cbn [shape data].
  change [length x] with ([] ++ [length x]).
  rewrite split_last_snoc, Hx, triangular_root_complete.
  cbn [numel fold_right]. rewrite chunks_one by exact Hx.
  cbn [map concat app]. now rewrite app_nil_r.
Qed.

(** The example of the library's documentation. *)
Example fill_triangular_documented :
  fill_triangular (vector (map F32.of_Z [1; 2; 3; 4; 5; 6]%Z))
  = Ok {| shape := [3; 3];
          data := map F32.of_Z [4; 0; 0; 6; 5; 0; 3; 2; 1]%Z |}.
Proof. reflexivity. Qed.

Lemma fill_triangular_row_upper (d : nat) (x : list F32.t) (i j : nat) :
  length x = d * (d + 1) / 2 -> i < j -> j < d ->
  nth (i * d + j) (fill_triangular_row d x) F32.zero = F32.zero.
Proof.
  intros Hx Hij Hj.
  pose proof (length_fill_triangular_row d x Hx) as Hlen.
  unfold fill_triangular_row, matrix_band_lower in *.
  rewrite length_mapi in Hlen.
  rewrite nth_mapi with (a := F32.zero) by (rewrite Hlen; nia).
  rewrite index_div, index_mod by lia.
  destruct (Nat.leb_spec j i); [lia | reflexivity].
Qed.

Lemma diag_row_nth (d : nat) (y : list F32.t) (i : nat) :
  i < d -> nth i (diag_row d d y) F32.zero = nth (i * d + i) y F32.zero.
Proof.
  intros Hi. unfold diag_row. rewrite Nat.min_id.
  set (f := fun k => nth (k * d + k) y F32.zero).
  rewrite nth_indep with (d' := f 0) by (now rewrite length_map, length_seq).
  rewrite map_nth, seq_nth by lia. reflexivity.
Qed.

Lemma length_diag_row (d : nat) (y : list F32.t) : length (diag_row d d y) = d.
Proof.
  unfold diag_row. now rewrite length_map, length_seq, Nat.min_id.
Qed.

Lemma set_diag_row_nth (d : nat) (y diagonal : list F32.t) (i j : nat) :
  length y = d * d -> i < d -> j < d ->
  nth (i * d + j) (set_diag_row d y diagonal) F32.zero
  = if i =? j then nth i diagonal F32.zero else nth (i * d + j) y F32.zero.
Proof.
  intros Hy Hi Hj. unfold set_diag_row.
  rewrite nth_mapi with (a := F32.zero) by (rewrite Hy; now apply index_lt).
  now rewrite index_div, index_mod by lia.
Qed.

Lemma matrix_diag_part_square (d : nat) (y : list F32.t) :
  length y = d * d ->
  matrix_diag_part {| shape := [d; d]; data := y |}
  = Ok {| shape := [d]; data := diag_row d d y |}.
Proof.
  intros Hy. unfold matrix_diag_part. cbn [shape data].
  change [d; d] with ([] ++ [d; d]). rewrite split_last2_snoc.
  cbn [numel fold_right]. rewrite chunks_one by exact Hy.
  cbn [map concat app]. now rewrite app_nil_r, Nat.min_id.
Qed.

Lemma set_diag_square (mismatch : tensor -> tensor -> result tensor)
      (d : nat) (y diagonal : list F32.t) :
  length y = d * d -> length diagonal = d ->
  set_diag mismatch {| shape := [d; d]; data := y |}
           {| shape := [d]; data := diagonal |}
  = Ok {| shape := [d; d]; data := set_diag_row d y diagonal |}.
Proof.
  intros Hy Hd. unfold set_diag. cbn [shape data].
  change [d; d] with ([] ++ [d; d]) at 1. rewrite split_last2_snoc.
  rewrite Nat.min_id. cbn [app]. rewrite shape_eqb_refl.
  cbn [numel fold_right]. rewrite !chunks_one by assumption.
  cbn [map2 concat app]. now rewrite app_nil_r.
Qed.

Lemma abs_not_negative (x : F32.t) : F32.is_negative (F32.abs x) = false.
Proof. now destruct x. Qed.

Lemma abs_nonneg_unless_nan (x : F32.t) :
  F32.is_nan x = false -> SFleb F32.zero (F32.abs x) = true.
Proof. destruct x; simpl; intros H; try reflexivity; discriminate. Qed.

(** ** Executions *)

Section Executions.

Context {L : Library}.

Open Scope notebook_scope.

Lemma value_bind {A B} (m : M A) (k : A -> M B) (w : world) :
  value (bind m k) w
  = match value m w with
    | Ok a => value (k a) (after m w)
    | Raised e => Raised e
    end.
Proof.
  unfold value, after, bind. now destruct (m w) as [[a|e] w'].
Qed.

Lemma after_bind {A B} (m : M A) (k : A -> M B) (w : world) :
  after (bind m k) w
  = match value m w with
    | Ok a => after (k a) (after m w)
    | Raised e => after m w
    end.
Proof.
  unfold value, after, bind. now destruct (m w) as [[a|e] w'].
Qed.

Lemma value_call_pure {A} (f : Ext.name) (r : result A) (w : world) :
  value (call_pure f r) w = r.
Proof. reflexivity. Qed.

Lemma value_ret {A} (a : A) (w : world) : value (ret a) w = Ok a.
Proof. reflexivity. Qed.

(** What [make_tril] returns, whatever the state it runs in. *)
Lemma make_tril_abs_value (x : tensor) (w : world) :
  value (make_tril x (Some abs_fn)) w
  = (y <-- fill_triangular x ;;;
     d <-- matrix_diag_part y ;;;
     set_diag set_diag_mismatch y (tf_abs d))%result.
Proof.
  unfold make_tril. rewrite value_bind, value_call_pure.
  destruct (fill_triangular x) as [y|e]; [|reflexivity].
  cbn [rbind]. rewrite value_bind, value_call_pure.
  destruct (matrix_diag_part y) as [d|e]; [|reflexivity].
  cbn [rbind]. unfold abs_fn. now rewrite value_bind, !value_call_pure.
Qed.

Lemma make_tril_None_value (x : tensor) (w : world) :
  value (make_tril x None) w = fill_triangular x.
Proof.
  unfold make_tril. rewrite value_bind, value_call_pure.
  now destruct (fill_triangular x).
Qed.

Lemma make_tril_vector (d : nat) (x : list F32.t) (w : world) :
  length x = d * (d + 1) / 2 ->
  value (make_tril (vector x) (Some abs_fn)) w
  = Ok {| shape := [d; d];
          data := set_diag_row d (fill_triangular_row d x)
                    (map F32.abs (diag_row d d (fill_triangular_row d x))) |}.
Proof.
  intros Hx. pose proof (length_fill_triangular_row d x Hx) as Hy.
  rewrite make_tril_abs_value, (fill_triangular_vector d x Hx).
  cbn [rbind]. rewrite matrix_diag_part_square by exact Hy.
  cbn [rbind]. unfold tf_abs. cbn [shape data].
  apply set_diag_square; [exact Hy|].
  now rewrite length_map, length_diag_row.
Qed.

(** C8. For a flat vector [x] of length [d (d + 1) / 2], [make_tril x]
    with the default [transform_fn = tf.abs] is a [d] by [d] matrix that
    is zero above the diagonal, agrees with [fill_triangular x] below
    the diagonal, and carries on the diagonal the absolute values of the
    diagonal of [fill_triangular x]: no diagonal entry is negative, and
    each is [>= 0] unless it is NaN.  With [transform_fn = None],
    [make_tril] returns [fill_triangular x] itself, for every [x]. *)
Theorem make_tril_lower_triangular_abs_diagonal
        (w : world) (d : nat) (x : list F32.t) :
  length x = d * (d + 1) / 2 ->
  (forall x' w', value (make_tril x' None) w' = fill_triangular x') /\
  exists y t,
    fill_triangular (vector x) = Ok y /\
    value (make_tril (vector x) (Some abs_fn)) w = Ok t /\
    shape t = [d; d] /\ length (data t) = d * d /\
    forall i j, i < d -> j < d ->
      (i < j -> entry d t i j = F32.zero) /\
      (j < i -> entry d t i j = entry d y i j) /\
      entry d t i i = F32.abs (entry d y i i) /\
      F32.is_negative (entry d t i i) = false /\
      (F32.is_nan (entry d y i i) = false ->
       SFleb F32.zero (entry d t i i) = true).
Proof.
  intros Hx. split; [intros; apply make_tril_None_value|].
  pose proof (length_fill_triangular_row d x Hx) as Hy.
  eexists; eexists.
  split; [apply fill_triangular_vector, Hx|].
  split; [apply make_tril_vector, Hx|].
  split; [reflexivity|].
  split; [cbn [data]; unfold set_diag_row; now rewrite length_mapi|].
  intros i j Hi Hj. unfold entry. cbn [data].
  assert (Hdiag : nth (i * d + i)
                    (set_diag_row d (fill_triangular_row d x)
                       (map F32.abs (diag_row d d (fill_triangular_row d x))))
                    F32.zero
                  = F32.abs (nth (i * d + i) (fill_triangular_row d x) F32.zero)).
  { rewrite set_diag_row_nth, Nat.eqb_refl by assumption.
    change F32.zero with (F32.abs F32.zero) at 1.
    now rewrite map_nth, diag_row_nth. }
  repeat split.
  - intros Hij. rewrite set_diag_row_nth by assumption.
    destruct (Nat.eqb_spec i j); [lia|].
    now apply fill_triangular_row_upper.
  - intros Hji. rewrite set_diag_row_nth by assumption.
    destruct (Nat.eqb_spec i j); [lia | reflexivity].
  - exact Hdiag.
  - rewrite Hdiag. apply abs_not_negative.
  - intros Hnan. rewrite Hdiag. now apply abs_nonneg_unless_nan.
Qed.

End Executions.

(** C8 at [d = 2], on a vector with a negative and a NaN entry. *)
Lemma make_tril_lower_triangular_abs_diagonal_witness :
  let x := [F32.opp F32.one; F32.one; S754_nan] in
  length x = 2 * (2 + 1) / 2 /\
  exists t,
    value (make_tril (vector x) (Some abs_fn)) Small.world0 = Ok t /\
    shape t = [2; 2] /\
    entry 2 t 0 1 = F32.zero /\
    F32.is_negative (entry 2 t 1 1) = false.
Proof.
  intros x. split; [reflexivity|].
  destruct (make_tril_lower_triangular_abs_diagonal Small.world0 2 x eq_refl)
    as [_ [y [t [_ [Ht [Hs [_ H]]]]]]].
  exists t. split; [exact Ht|]. split; [exact Hs|].
  split.
  - apply (H 0 1); lia.
  - apply (H 1 1); lia.
Defined.

(** ** Session helpers *)

Section Sessions.

Context {L : Library}.

Open Scope notebook_scope.

(** C10. [session_options] returns normally, with a configuration that
    depends on the two flags only; in it [log_device_placement] is [True],
    [gpu_options.allow_growth] is [True] exactly when
    [enable_gpu_ram_resizing] is, and the XLA [global_jit_level] is [ON_1]
    exactly when [enable_xla] is. *)
Theorem session_options_flags (enable_gpu_ram_resizing enable_xla : bool) :
  exists config,
    (forall w, value (session_options enable_gpu_ram_resizing enable_xla) w
               = Ok config) /\
    log_device_placement config = true /\
    (allow_growth (gpu_options config) = true
     <-> enable_gpu_ram_resizing = true) /\
    (global_jit_level (optimizer_options (graph_options config)) = ON_1
     <-> enable_xla = true).
Proof.
  destruct enable_gpu_ram_resizing, enable_xla;
    eexists; (split; [intros w; reflexivity|]); cbn;
    repeat split; intros; congruence.
Qed.

(** The steps of one execution of [reset_sess]: the construction of the
    default configuration when none is given, the graph reset, and then
    at most three more. *)
Lemma reset_sess_trace (config : option ConfigProto) (w : world) :
  exists tail,
    trace (after (reset_sess config) w)
    = trace w
      ++ match config with None => [Call Ext.tf_ConfigProto] | Some _ => [] end
      ++ Call Ext.tf_reset_default_graph :: tail /\
    length tail <= 3.
Proof.
  unfold after, reset_sess, effective_config, bind, session_options,
    call_pure, call, ret,
    try_except, read_sess, write_sess.
  destruct config as [c|]; cbn;
    destruct (tf_reset_default_graph (tf w)) as [[[]|e] s1];
    cbn;
    destruct (sess w) as [old|]; cbn;
    repeat match goal with
      | |- context [Session_close ?o ?s] =>
          destruct (Session_close o s) as [[[]|?] ?];
          cbn
      | |- context [tf_InteractiveSession ?c ?s] =>
          destruct (tf_InteractiveSession c s) as [[?|?] ?];
          cbn
      end;
    rewrite <- ?app_assoc; cbn [app];
    eexists; (split; [reflexivity | cbn; lia]).
Qed.

(** C6. [reset_sess(None)] runs exactly as [reset_sess(session_options())];
    [tf.reset_default_graph] is called in every execution; and whenever
    that call and the construction of the [InteractiveSession] from the
    configuration return, [reset_sess] returns normally with the global
    [sess] bound to the session just constructed, whether [sess] was
    unbound before or bound to a session whose [close] raises.  The
    configuration the session is constructed from is the one given, and
    [session_options()]'s when none is given. *)
Theorem reset_sess_rebinds_and_swallows (config : option ConfigProto) (w : world) :
  reset_sess None w
  = (c <- session_options true true ;; reset_sess (Some c)) w /\
  In (Call Ext.tf_reset_default_graph) (trace (after (reset_sess config) w)) /\
  forall s1 s3 new,
    tf_reset_default_graph (tf w) = (Ok tt, s1) ->
    tf_InteractiveSession
      (match config with
       | Some given => given
       | None =>
           {| log_device_placement := true;
              gpu_options := {| allow_growth := true |};
              graph_options :=
                {| optimizer_options := {| global_jit_level := ON_1 |} |} |}
       end)
      (match sess w with
       | None => s1
       | Some old => snd (Session_close old s1)
       end) = (Ok new, s3) ->
    value (reset_sess config) w = Ok tt /\
    sess (after (reset_sess config) w) = Some new /\
    tf (after (reset_sess config) w) = s3.
Proof.
  split; [reflexivity|]. split.
  - destruct (reset_sess_trace config w) as [tail [-> _]].
    apply in_or_app; right. apply in_or_app; right. now left.
  - intros s1 s3 new Hreset Hnew.
    unfold value, after, reset_sess, effective_config, bind, session_options,
      call_pure, call, ret, try_except, read_sess, write_sess in *.
    destruct config as [c|]; cbn in *;
      rewrite Hreset; cbn;
      destruct (sess w) as [old|]; cbn in *;
      try (destruct (Session_close old s1) as [[[]|?] ?];
           cbn in * );
      unfold set_global_jit_level, set_gpu_options_allow_growth,
        set_log_device_placement, ConfigProto_default;
      cbn;
      rewrite Hnew; cbn; auto.
Qed.

End Sessions.

(** C6 on runs where [sess] is bound to a session whose [close] raises:
    without a configuration, and with a given one that differs from
    [session_options()]'s (the sessions of the small library are the
    configurations they are constructed from). *)
Lemma reset_sess_rebinds_and_swallows_witness :
  let w := Small.world1 in
  let cfg := {| log_device_placement := true;
                gpu_options := {| allow_growth := true |};
                graph_options :=
                  {| optimizer_options := {| global_jit_level := ON_1 |} |} |} in
  let given := {| log_device_placement := false;
                  gpu_options := {| allow_growth := true |};
                  graph_options :=
                    {| optimizer_options :=
                         {| global_jit_level := OFF |} |} |} in
  @Session_close Small.library ConfigProto_default 1
  = (Raised (LibraryError 0), 1) /\
  (value (reset_sess None) w = Ok tt /\
   sess (after (reset_sess None) w) = Some cfg) /\
  (value (reset_sess (Some given)) w = Ok tt /\
   sess (after (reset_sess (Some given)) w) = Some given).
Proof.
  intros w cfg given.
  destruct (reset_sess_rebinds_and_swallows None w) as [_ [_ H]].
  destruct (H 1 1 cfg eq_refl eq_refl) as [Hv [Hs _]].
  destruct (reset_sess_rebinds_and_swallows (Some given) w) as [_ [_ H']].
  destruct (H' 1 1 given eq_refl eq_refl) as [Hv' [Hs' _]].
  repeat split; assumption.
Defined.

(** ** Concatenating and summing vectors *)

Lemma concat_reduce_vectors
      (kernel : list F32.t -> F32.t) (a c d : list F32.t) (b : F32.t) :
  (parts <-- tf_concat_last
               [vector a; expand_last (scalar b); vector c; vector d] ;;;
   tf_reduce_sum_last kernel parts)%result
  = Ok (scalar (kernel (a ++ [b] ++ c ++ d))).
Proof.
  unfold tf_concat_last, vector, expand_last, scalar.
  cbn [shape data split_last rev app concat_rows numel fold_right chunks map2
       shape_eqb andb Nat.mul Nat.add repeat].
  rewrite !firstn_all. cbn [firstn concat app rbind].
  rewrite !app_nil_r.
  unfold tf_reduce_sum_last.
  cbn [shape data split_last rev app numel fold_right chunks Nat.mul Nat.add
       map].
  rewrite firstn_all2; [reflexivity|].
  rewrite length_app. cbn [length]. rewrite length_app. lia.
Qed.

(** ** The model: priors, transformed distributions, joint log-density *)

Section ModelFacts.

Context {L : Library}.

Open Scope notebook_scope.

Lemma UnconstrainedDirichlet_value (concentration : tensor) (w : world) :
  value (UnconstrainedDirichlet concentration) w
  = Ok (TransformedDistribution (Dirichlet concentration)
                                (Invert SoftmaxCentered)).
Proof. reflexivity. Qed.

Lemma MVNInverseTriL_value (loc precision_tril : tensor) (w : world) :
  value (MVNInverseTriL loc precision_tril) w
  = Ok (TransformedDistribution
          (Independent (Normal loc (tf_ones_like loc)) 1)
          (Invert (Affine precision_tril))).
Proof. reflexivity. Qed.

(** What [joint_log_prob] returns, in terms of the library's results. *)
Lemma joint_log_prob_value
      (prior : priors) (observations logits loc flat_chol_precision : tensor)
      (w : world) :
  value (joint_log_prob prior observations logits loc flat_chol_precision) w
  = (chol_precision <-- value (make_tril flat_chol_precision (Some abs_fn)) w ;;;
     padded <-- pad logits false true F32.zero 1 ;;;
     p_observations <--
       log_prob
         (MixtureSameFamily
            (Categorical padded)
            (TransformedDistribution
               (Independent (Normal loc (tf_ones_like loc)) 1)
               (Invert (Affine chol_precision))))
         observations ;;;
     p_logits <-- log_prob (rv_logits prior) logits ;;;
     p_loc <-- log_prob (rv_loc prior) loc ;;;
     p_precision <-- log_prob (rv_precision prior) chol_precision ;;;
     parts <-- tf_concat_last
                 [p_observations; expand_last p_logits; p_loc; p_precision] ;;;
     tf_reduce_sum_last reduce_sum_kernel parts)%result.
Proof.
  unfold joint_log_prob.
  rewrite value_bind.
  destruct (value (make_tril flat_chol_precision (Some abs_fn)) w)
    as [chol_precision|e]; [cbn [rbind] | reflexivity].
  repeat (rewrite value_bind;
          first [rewrite value_call_pure | rewrite MVNInverseTriL_value];
          cbv beta iota;
          try match goal with
              | |- match ?r with Ok _ => _ | Raised _ => _ end = _ =>
                  destruct r; [cbn [rbind] | reflexivity]
              end).
  now rewrite value_call_pure.
Qed.

(** C1. The value of [joint_log_prob] is the reduction, over the last
    axis of their concatenation, of four library log-densities in this
    order: the [MixtureSameFamily] density of the observations, the
    [rv_logits] prior density of [logits] with one trailing axis added, the
    [rv_loc] prior density of [loc], and the [rv_precision] prior density
    of [make_tril(flat_chol_precision)].  When the library returns one
    log-density per observation, one for the logits and one per component
    for [loc] and for the precision, the result is the scalar sum of all
    of them. *)
Theorem joint_log_prob_sums_four_parts
        (prior : priors) (observations logits loc flat_chol_precision : tensor)
        (w : world) :
  value (joint_log_prob prior observations logits loc flat_chol_precision) w
  = (chol_precision <-- value (make_tril flat_chol_precision (Some abs_fn)) w ;;;
     padded <-- pad logits false true F32.zero 1 ;;;
     p_observations <--
       log_prob
         (MixtureSameFamily
            (Categorical padded)
            (TransformedDistribution
               (Independent (Normal loc (tf_ones_like loc)) 1)
               (Invert (Affine chol_precision))))
         observations ;;;
     p_logits <-- log_prob (rv_logits prior) logits ;;;
     p_loc <-- log_prob (rv_loc prior) loc ;;;
     p_precision <-- log_prob (rv_precision prior) chol_precision ;;;
     parts <-- tf_concat_last
                 [p_observations; expand_last p_logits; p_loc; p_precision] ;;;
     tf_reduce_sum_last reduce_sum_kernel parts)%result /\
  forall chol_precision padded a b c d,
    value (make_tril flat_chol_precision (Some abs_fn)) w = Ok chol_precision ->
    pad logits false true F32.zero 1 = Ok padded ->
    log_prob
      (MixtureSameFamily
         (Categorical padded)
         (TransformedDistribution
            (Independent (Normal loc (tf_ones_like loc)) 1)
            (Invert (Affine chol_precision))))
      observations = Ok (vector a) ->
    log_prob (rv_logits prior) logits = Ok (scalar b) ->
    log_prob (rv_loc prior) loc = Ok (vector c) ->
    log_prob (rv_precision prior) chol_precision = Ok (vector d) ->
    value (joint_log_prob prior observations logits loc flat_chol_precision) w
    = Ok (scalar (reduce_sum_kernel (a ++ [b] ++ c ++ d))).
Proof.
  split; [apply joint_log_prob_value|].
  intros chol_precision padded a b c d Hchol Hpad Ha Hb Hc Hd.
  rewrite joint_log_prob_value, Hchol. cbn [rbind].
  rewrite Hpad. cbn [rbind]. rewrite Ha. cbn [rbind].
  rewrite Hb. cbn [rbind]. rewrite Hc. cbn [rbind]. rewrite Hd. cbn [rbind].
  apply concat_reduce_vectors.
Qed.

(** C2. The closure pins down the observations only: applied to the three
    sampled-state arguments it is [joint_log_prob] at the pinned
    observations and those arguments, and it accepts no other number of
    arguments (a [TypeError], and nothing is executed). *)
Theorem closure_pins_observations (prior : priors) (observations : tensor) :
  (forall logits loc flat_chol_precision,
      unnormalized_posterior_log_prob prior observations
                                      [logits; loc; flat_chol_precision]
      = joint_log_prob prior observations logits loc flat_chol_precision) /\
  (forall args w,
      length args <> 3 ->
      unnormalized_posterior_log_prob prior observations args w
      = (Raised TypeError, w)).
Proof.
  split; [reflexivity|].
  intros [|a [|b [|c [|d args]]]] w Hlen; try reflexivity.
  now contradiction Hlen.
Qed.

Lemma pad_back_vector (l : list F32.t) :
  pad (vector l) false true F32.zero 1 = Ok (vector (l ++ [F32.zero])).
Proof.
  unfold pad, vector.
  cbn [negb andb shape data split_last rev app numel fold_right chunks map
       Nat.mul Nat.add repeat concat].
  rewrite firstn_all, app_nil_r, length_app. reflexivity.
Qed.

Lemma pad_back_rows (logits : tensor) (lead : list nat) (k : nat) :
  shape logits = lead ++ [k] ->
  pad logits false true F32.zero 1
  = Ok {| shape := lead ++ [k + 1];
          data := concat (map (fun row => row ++ [F32.zero])
                              (chunks k (numel lead) (data logits))) |}.
Proof.
  intros Hshape. unfold pad. rewrite Hshape, split_last_snoc.
  cbn [negb andb Nat.add repeat app]. reflexivity.
Qed.

(** C5. The model specification binds three priors: [rv_logits], an
    [UnconstrainedDirichlet] whose concentration has three entries, each
    the float32 quotient [1 / 10] (that is [13421773 * 2^-27], the float32
    nearest to one tenth); [rv_loc], an [Independent] [Normal] over three
    components of dimension two at [(-1, -1)], [(0, 0)], [(1, 1)] with
    unit scale; [rv_precision], a [WishartCholesky] with [df = 5], a two by
    two identity scale per component and
    [cholesky_input_output_matrices = True]. *)
Theorem model_specification_priors (w : world) :
  let tenth := S754_finite false 13421773 (-27) in
  let one := F32.one in
  let zero := F32.zero in
  let minus_one := F32.opp F32.one in
  value model_specification w
  = Ok {| rv_logits :=
            TransformedDistribution
              (Dirichlet {| shape := [3]; data := [tenth; tenth; tenth] |})
              (Invert SoftmaxCentered);
          rv_loc :=
            Independent
              (Normal {| shape := [3; 2];
                         data := [minus_one; minus_one; zero; zero; one; one] |}
                      {| shape := [3; 2];
                         data := [one; one; one; one; one; one] |})
              1;
          rv_precision :=
            WishartCholesky
              5
              {| shape := [3; 2; 2];
                 data := [one; zero; zero; one;
                          one; zero; zero; one;
                          one; zero; zero; one] |}
              true |} /\
  tenth = F32.div F32.one (F32.of_Z 10) /\
  (2 * Z.abs (10 * 13421773 - 2 ^ 27) <= 10)%Z /\
  trace (after model_specification w)
  = trace w
    ++ [Call Ext.np_ones; Call Ext.tfd_Dirichlet; Call Ext.tfb_SoftmaxCentered;
        Call Ext.tfb_Invert; Call Ext.TransformedDistribution_init;
        Bind "rv_logits";
        Call Ext.np_ones; Call Ext.np_zeros; Call Ext.np_ones;
        Call Ext.np_stack; Call Ext.tf_ones; Call Ext.tfd_Normal;
        Call Ext.tfd_Independent; Bind "rv_loc";
        Call Ext.np_eye; Call Ext.np_stack; Call Ext.tfd_WishartCholesky;
        Bind "rv_precision"].
Proof.
  cbv zeta. split; [reflexivity|]. split; [reflexivity|].
  split; [vm_compute; discriminate|].
  cbn. now rewrite <- !app_assoc.
Qed.

(** C9. The chain starts with a logits entry of shape [[components - 1]];
    [joint_log_prob] builds the [Categorical] of the mixture from the
    logits padded with exactly one zero at the back, so that logits of
    length [components - 1] give [components] mixture logits. *)
Theorem logits_softmax_centered_convention :
  (forall w flat_chol_precision,
      fill_triangular_inverse (tf_eye dims [components])
      = Ok flat_chol_precision ->
      exists logits loc,
        value initial_state w = Ok [logits; loc; flat_chol_precision] /\
        shape logits = [components - 1]) /\
  (forall logits lead k,
      shape logits = lead ++ [k] ->
      pad logits false true F32.zero 1
      = Ok {| shape := lead ++ [k + 1];
              data := concat (map (fun row => row ++ [F32.zero])
                                  (chunks k (numel lead) (data logits))) |}) /\
  (forall prior observations l loc flat_chol_precision w,
      length l = components - 1 ->
      exists padded,
        pad (vector l) false true F32.zero 1 = Ok padded /\
        data padded = l ++ [F32.zero] /\
        shape padded = [components] /\
        value (joint_log_prob prior observations (vector l) loc
                              flat_chol_precision) w
        = (chol_precision <--
             value (make_tril flat_chol_precision (Some abs_fn)) w ;;;
           p_observations <--
             log_prob
               (MixtureSameFamily
                  (Categorical padded)
                  (TransformedDistribution
                     (Independent (Normal loc (tf_ones_like loc)) 1)
                     (Invert (Affine chol_precision))))
               observations ;;;
           p_logits <-- log_prob (rv_logits prior) (vector l) ;;;
           p_loc <-- log_prob (rv_loc prior) loc ;;;
           p_precision <-- log_prob (rv_precision prior) chol_precision ;;;
           parts <-- tf_concat_last
                       [p_observations; expand_last p_logits; p_loc;
                        p_precision] ;;;
           tf_reduce_sum_last reduce_sum_kernel parts)%result).
Proof.
  split.
  - intros w flat_chol_precision Hflat.
    eexists; eexists. split.
    + unfold initial_state, assign, value, bind, call_pure, call, log, ret.
      cbn. rewrite Hflat. reflexivity.
    + reflexivity.
  - split; [apply pad_back_rows|].
    intros prior observations l loc flat_chol_precision w Hl.
    exists (vector (l ++ [F32.zero])).
    split; [apply pad_back_vector|]. split; [reflexivity|].
    split; [cbn; rewrite length_app, Hl; reflexivity|].
    rewrite joint_log_prob_value.
    destruct (value (make_tril flat_chol_precision (Some abs_fn)) w);
      [cbn [rbind] | reflexivity].
    now rewrite pad_back_vector.
Qed.

End ModelFacts.

(** C1 on two observations, with the densities of the small library. *)
Lemma joint_log_prob_sums_four_parts_witness :
  let prior :=
    {| rv_logits := TransformedDistribution (Dirichlet (np_ones [3]))
                                            (Invert SoftmaxCentered);
       rv_loc := Independent (Normal (np_zeros [3; 2]) (np_ones [3; 2])) 1;
       rv_precision := WishartCholesky 5 (np_zeros [3; 2; 2]) true |} in
  value (joint_log_prob prior (np_zeros [2; 2]) (np_zeros [2])
                        (np_zeros [3; 2]) (np_zeros [3; 3]))
        Small.world0
  = Ok (scalar (Small.left_sum (repeat F32.zero 9))).
Proof.
  intros prior.
  apply (proj2 (joint_log_prob_sums_four_parts
                  prior (np_zeros [2; 2]) (np_zeros [2]) (np_zeros [3; 2])
                  (np_zeros [3; 3]) Small.world0)
               (np_zeros [3; 2; 2]) (np_zeros [3])
               (repeat F32.zero 2) F32.zero (repeat F32.zero 3)
               (repeat F32.zero 3));
    reflexivity.
Defined.

(** C2 on an empty argument list. *)
Lemma closure_pins_observations_witness :
  let prior :=
    {| rv_logits := Dirichlet (np_ones [3]);
       rv_loc := Dirichlet (np_ones [3]);
       rv_precision := Dirichlet (np_ones [3]) |} in
  length (@nil tensor) <> 3 /\
  unnormalized_posterior_log_prob prior (np_zeros [2; 2]) [] Small.world0
  = (Raised TypeError, Small.world0).
Proof.
  intros prior.
  assert (H : length (@nil tensor) <> 3) by (cbn; lia).
  split; [exact H|].
  exact (proj2 (closure_pins_observations prior (np_zeros [2; 2]))
               [] Small.world0 H).
Defined.

(** C9 with the small library, on zero logits. *)
Lemma logits_softmax_centered_convention_witness :
  (exists logits loc,
      value initial_state Small.world0 = Ok [logits; loc; np_zeros [3; 3]] /\
      shape logits = [components - 1]) /\
  exists padded,
    pad (vector [F32.zero; F32.zero]) false true F32.zero 1 = Ok padded /\
    data padded = [F32.zero; F32.zero; F32.zero] /\
    shape padded = [3].
Proof.
  split.
  - exact (proj1 (logits_softmax_centered_convention (L := Small.library))
                 Small.world0 (np_zeros [3; 3]) eq_refl).
  - destruct (proj2 (proj2 (logits_softmax_centered_convention
                              (L := Small.library)))
                    {| rv_logits := Dirichlet (np_ones [3]);
                       rv_loc := Dirichlet (np_ones [3]);
                       rv_precision := Dirichlet (np_ones [3]) |}
                    (np_zeros [2; 2]) [F32.zero; F32.zero]
                    (np_zeros [3; 2]) (np_zeros [3; 3]) Small.world0 eq_refl)
      as [padded [Hpad [Hdata [Hshape _]]]].
    exists padded. repeat split; assumption.
Defined.

(** ** The steps of an execution *)

Section StepFacts.

Context {L : Library}.

Open Scope notebook_scope.

Lemma emits_at_bind {A B} (m : M A) (k : A -> M B) (w : world)
      (t1 t2 : list event) :
  emits_at m w t1 ->
  (forall a, value m w = Ok a -> emits_at (k a) (after m w) t2) ->
  emits_at (bind m k) w (t1 ++ t2).
Proof.
  intros (d1 & r1 & -> & Htrace1 & Hrest1) Hk.
  unfold emits_at. rewrite after_bind, value_bind.
  destruct (value m w) as [a|e].
  - rewrite (Hrest1 a eq_refl), app_nil_r in *.
    destruct (Hk a eq_refl) as (d2 & r2 & -> & Htrace2 & Hrest2).
    exists (d1 ++ d2), r2. repeat split.
    + now rewrite app_assoc.
    + now rewrite Htrace2, Htrace1, app_assoc.
    + exact Hrest2.
  - exists d1, (r1 ++ t2). repeat split.
    + now rewrite app_assoc.
    + exact Htrace1.
    + discriminate.
Qed.

Lemma emits_bind {A B} (m : M A) (k : A -> M B) (t1 t2 : list event) :
  emits m t1 -> (forall a, emits (k a) t2) -> emits (bind m k) (t1 ++ t2).
Proof.
  intros Hm Hk w. apply emits_at_bind; [apply Hm | intros a _; apply Hk].
Qed.

Lemma emits_eq {A} (m : M A) (t t' : list event) :
  emits m t -> t = t' -> emits m t'.
Proof. now intros H <-. Qed.

Lemma emits_exact {A} (m : M A) (tr : list event) :
  (forall w, trace (after m w) = trace w ++ tr) -> emits m tr.
Proof.
  intros H w. exists tr, []. repeat split.
  - now rewrite app_nil_r.
  - apply H.
Qed.

Lemma emits_ret {A} (a : A) : emits (ret a) [].
Proof. apply emits_exact. intros w. cbn. now rewrite app_nil_r. Qed.

Lemma emits_lift {A} (r : result A) : emits (lift r) [].
Proof. apply emits_exact. intros w. cbn. now rewrite app_nil_r. Qed.

Lemma emits_read_sess : emits read_sess [].
Proof.
  apply emits_exact. intros w. unfold after, read_sess.
  destruct (sess w); cbn; now rewrite app_nil_r.
Qed.

Lemma emits_callback {A B} (f : A -> M B) : emits (callback f) [].
Proof. apply emits_exact. intros w. cbn. now rewrite app_nil_r. Qed.

Lemma emits_raise {A} (e : exn) (tr : list event) : emits (@raise L A e) tr.
Proof.
  intros w. exists [], tr. repeat split.
  - cbn. now rewrite app_nil_r.
  - discriminate.
Qed.

Lemma emits_log (e : event) : emits (log e) [e].
Proof. now apply emits_exact. Qed.

Lemma emits_call {A} (f : Ext.name) (op : tf_state -> result A * tf_state) :
  emits (call f op) [Call f].
Proof.
  apply emits_exact. intros w. unfold after, call.
  now destruct (op (tf w)).
Qed.

Lemma emits_assign {A} (x : string) (m : M A) (tr : list event) :
  emits m tr -> emits (assign x m) (tr ++ [Bind x]).
Proof.
  intros Hm. unfold assign. apply emits_bind; [exact Hm|]. intros a.
  change [Bind x] with ([Bind x] ++ []).
  apply emits_bind; [apply emits_log|].
  intros _. apply emits_ret.
Qed.

Ltac head_of t :=
  match t with
  | ?f _ => head_of f
  | _ => t
  end.

(** Derives the steps of a straight-line computation from its text. *)
Ltac emits_step :=
  match goal with
  | |- emits (bind _ _) _ => eapply emits_bind; [|intro]
  | |- emits (assign _ _) _ => eapply emits_assign
  | |- emits (call_pure _ _) _ => apply emits_call
  | |- emits (call _ _) _ => apply emits_call
  | |- emits (ret _) _ => apply emits_ret
  | |- emits (lift _) _ => apply emits_lift
  | |- emits (log _) _ => apply emits_log
  | |- emits (raise _) _ => apply emits_raise
  | |- emits read_sess _ => apply emits_read_sess
  | |- emits (callback _) _ => apply emits_callback
  | |- emits (match ?x with _ => _ end) _ => destruct x
  | |- emits ?m _ =>
      let h := head_of m in progress unfold h; cbv beta iota zeta
  end.

Ltac emits_text := eapply emits_eq; [repeat emits_step | reflexivity].

Lemma session_options_emits (a b : bool) :
  emits (session_options a b) [Call Ext.tf_ConfigProto].
Proof. unfold session_options. emits_text. Qed.

Lemma UnconstrainedDirichlet_emits (c : tensor) :
  emits (UnconstrainedDirichlet c)
        [Call Ext.tfd_Dirichlet; Call Ext.tfb_SoftmaxCentered;
         Call Ext.tfb_Invert; Call Ext.TransformedDistribution_init].
Proof. unfold UnconstrainedDirichlet. emits_text. Qed.

Lemma MVNInverseTriL_emits (loc precision_tril : tensor) :
  emits (MVNInverseTriL loc precision_tril) MVNInverseTriL_events.
Proof. unfold MVNInverseTriL. emits_text. Qed.

Lemma make_tril_emits (x : tensor) :
  emits (make_tril x (Some abs_fn)) make_tril_events.
Proof. unfold make_tril, abs_fn. emits_text. Qed.

Lemma make_tril_None_emits (x : tensor) :
  emits (make_tril x None) [Call Ext.tfd_fill_triangular].
Proof. unfold make_tril. emits_text. Qed.

Lemma joint_log_prob_emits
      (prior : priors) (observations logits loc flat_chol_precision : tensor) :
  emits (joint_log_prob prior observations logits loc flat_chol_precision)
        joint_log_prob_events.
Proof. emits_text. Qed.

Lemma unnormalized_posterior_log_prob_emits
      (prior : priors) (observations : tensor) (args : list tensor) :
  emits (unnormalized_posterior_log_prob prior observations args)
        joint_log_prob_events.
Proof.
  unfold unnormalized_posterior_log_prob.
  destruct args as [|a [|b [|c [|d args]]]];
    try apply emits_raise. apply joint_log_prob_emits.
Qed.

Lemma model_specification_emits : emits model_specification prior_events.
Proof. emits_text. Qed.

Lemma emits_at_of {A} (m : M A) (tr : list event) (w : world) :
  emits m tr -> emits_at m w tr.
Proof. intros H. apply H. Qed.

Lemma emits_around_head {A B} (m : M A) (k : A -> M B) (w : world)
      (t1 before behind : list event) :
  emits_at m w t1 ->
  (forall a, value m w = Ok a ->
             emits_around (k a) (after m w) before behind) ->
  emits_around (bind m k) w (t1 ++ before) behind.
Proof.
  intros Hm Hk. destruct (value m w) as [a|e] eqn:E.
  - destruct (Hk a eq_refl) as [inside Hin]. exists inside.
    rewrite <- app_assoc. apply emits_at_bind; [exact Hm|].
    intros a' Ha'. rewrite E in Ha'. injection Ha' as <-. exact Hin.
  - exists []. rewrite <- app_assoc. apply emits_at_bind; [exact Hm|].
    intros a Ha. congruence.
Qed.

Lemma emits_around_tail {A B} (m : M A) (k : A -> M B) (w : world)
      (before behind t2 : list event) :
  emits_around m w before behind ->
  (forall a, value m w = Ok a -> emits_at (k a) (after m w) t2) ->
  emits_around (bind m k) w before (behind ++ t2).
Proof.
  intros [inside Hm] Hk. exists inside.
  replace (before ++ inside ++ behind ++ t2)
    with ((before ++ inside ++ behind) ++ t2)
    by (now rewrite <- !app_assoc).
  now apply emits_at_bind.
Qed.

Lemma emits_around_eq {A} (m : M A) (w : world)
      (before behind before' behind' : list event) :
  emits_around m w before behind ->
  before = before' -> behind = behind' -> emits_around m w before' behind'.
Proof. now intros H <- <-. Qed.

(** A routine that calls closures back: its call, then what it reports. *)
Lemma emits_around_call_with_callbacks {A} (f : Ext.name)
      (op : tf_state -> result A * tf_state * list event) (w : world) :
  emits_around (call_with_callbacks f op) w [Call f] [].
Proof.
  exists (snd (op (tf w))), ([Call f] ++ snd (op (tf w))), [].
  split; [|split].
  - cbn [app]. now rewrite !app_nil_r.
  - unfold after, call_with_callbacks.
    now destruct (op (tf w)) as [[r s] inside].
  - reflexivity.
Qed.

Lemma run_chain_emits (target : list tensor -> M tensor)
      (current_state : list tensor) (w : world) :
  emits_around (run_chain target current_state) w
               [Call Ext.tfp_mcmc_HamiltonianMonteCarlo;
                Call Ext.tfp_mcmc_sample_chain]
               chain_binding_events.
Proof.
  unfold run_chain.
  change [Call Ext.tfp_mcmc_HamiltonianMonteCarlo;
          Call Ext.tfp_mcmc_sample_chain]
    with ([] ++ [Call Ext.tfp_mcmc_HamiltonianMonteCarlo]
          ++ [Call Ext.tfp_mcmc_sample_chain]).
  apply emits_around_head; [apply emits_callback | intros fn _].
  apply emits_around_head; [apply emits_call | intros kernel _].
  change chain_binding_events with ([] ++ chain_binding_events).
  apply emits_around_tail;
    [apply emits_around_call_with_callbacks | intros out _].
  apply emits_at_of.
  destruct out as [[|a [|b [|c [|d l]]]] results];
    try apply emits_raise.
  emits_text.
Qed.

Lemma infer_and_report_emits (w : world) :
  emits_around infer_and_report w
    ([Bind "UnconstrainedDirichlet"; Bind "MVNInverseTriL";
      Bind "make_tril"; Bind "dtype"; Bind "dims"; Bind "components"]
     ++ prior_events ++ print_prior_events
     ++ [Bind "joint_log_prob"] ++ data_events
     ++ [Bind "unnormalized_posterior_log_prob"] ++ initial_state_events
     ++ [Call Ext.tfp_mcmc_HamiltonianMonteCarlo;
         Call Ext.tfp_mcmc_sample_chain])
    events_after_sampling.
Proof.
  unfold infer_and_report.
  eapply emits_around_eq.
  - do 12 (eapply emits_around_head;
           [apply emits_at_of; repeat emits_step | intros ? _]).
    eapply emits_around_tail; [apply run_chain_emits | intros c _].
    apply emits_at_of. repeat emits_step.
  - reflexivity.
  - reflexivity.
Qed.

Lemma reset_sess_emits (config : option ConfigProto) (w : world) :
  emits_at (reset_sess config) w
           (reset_sess_events (is_bound config) (is_bound (sess w))).
Proof.
  unfold emits_at, value, after, reset_sess, effective_config, bind,
    session_options, call_pure, call, ret, try_except, read_sess, write_sess,
    reset_sess_events.
  destruct config as [c|]; cbn;
    destruct (tf_reset_default_graph (tf w)) as [[[]|e] s1]; cbn;
    destruct (sess w) as [old|]; cbn;
    repeat match goal with
      | |- context [Session_close ?o ?s] =>
          destruct (Session_close o s) as [[[]|?] ?]; cbn
      | |- context [tf_InteractiveSession ?c ?s] =>
          destruct (tf_InteractiveSession c s) as [[?|?] ?]; cbn
      end;
    rewrite <- ?app_assoc; cbn [app];
    eexists; eexists;
    (split; [|split; [reflexivity|]]); [reflexivity | try discriminate..];
    reflexivity.
Qed.

Lemma open_session_emits (w : world) :
  emits_at open_session w
           ([Call Ext.plt_style_use; Bind "tfd"; Bind "tfb";
             Bind "session_options"; Bind "reset_sess"]
            ++ reset_sess_events false (is_bound (sess w))).
Proof.
  unfold open_session.
  change [Call Ext.plt_style_use; Bind "tfd"; Bind "tfb";
          Bind "session_options"; Bind "reset_sess"]
    with ([Call Ext.plt_style_use] ++ [Bind "tfd"] ++ [Bind "tfb"]
          ++ [Bind "session_options"] ++ [Bind "reset_sess"]).
  rewrite <- !app_assoc.
  apply emits_at_bind; [apply emits_call | intros _ _].
  do 4 (apply emits_at_bind; [apply emits_log | intros _ _]).
  exact (reset_sess_emits None _).
Qed.

Lemma notebook_emits (w : world) :
  emits_around notebook w
               (events_before_sampling (is_bound (sess w))
                ++ [Call Ext.tfp_mcmc_sample_chain])
               events_after_sampling.
Proof.
  unfold notebook.
  eapply emits_around_eq.
  - apply emits_around_head; [apply open_session_emits | intros _ _].
    apply infer_and_report_emits.
  - now destruct (is_bound (sess w)).
  - reflexivity.
Qed.

(** Called back by the library, the closure performs the steps of
    [joint_log_prob] (an initial part of them when it raises) and reports
    them. *)
Lemma closure_for_library_reports
      (globals : option Session) (prior : priors) (observations : tensor)
      (args : list tensor) (s : tf_state) :
  exists done rest,
    joint_log_prob_events = done ++ rest /\
    snd (closure_for_library
           globals (unnormalized_posterior_log_prob prior observations)
           args s) = done /\
    (forall a s',
        fst (closure_for_library
               globals (unnormalized_posterior_log_prob prior observations)
               args s) = (Ok a, s') -> rest = []).
Proof.
  destruct (unnormalized_posterior_log_prob_emits
              prior observations args
              {| tf := s; trace := []; sess := globals |})
    as (done & rest & Hsplit & Htrace & Hrest).
  exists done, rest. unfold closure_for_library.
  unfold value, after in *.
  destruct (unnormalized_posterior_log_prob prior observations args _)
    as [r w']. cbn in *.
  repeat split; [assumption | assumption |].
  intros a s' H. injection H as -> _. now apply (Hrest a).
Qed.

(** *** Runs in which the library returns *)

Lemma bind_run {A B} (m : M A) (k : A -> M B) (w w1 : world) (a : A) :
  m w = (Ok a, w1) -> bind m k w = k a w1.
Proof. intros H. unfold bind. now rewrite H. Qed.

Ltac run_monad :=
  cbv beta iota zeta
      delta [bind assign call_pure call call_with_callbacks callback log ret
             lift def print];
  cbn [tf trace sess fst snd].

Ltac run_done :=
  cbn [tf trace sess fst snd];
  repeat (progress (cbn [app]; rewrite <- ?app_assoc));
  reflexivity.

Lemma open_session_run (w : world) (reset opened : tf_state) (new : Session) :
  tf_reset_default_graph (tf w) = (Ok tt, reset) ->
  tf_InteractiveSession
    session_options_default
    (match sess w with
     | None => reset
     | Some old => snd (Session_close old reset)
     end) = (Ok new, opened) ->
  open_session w
  = (Ok tt,
     {| tf := opened;
        trace := trace w
                 ++ [Call Ext.plt_style_use; Bind "tfd"; Bind "tfb";
                     Bind "session_options"; Bind "reset_sess"]
                 ++ reset_sess_events false (is_bound (sess w));
        sess := Some new |}).
Proof.
  intros Hreset Hnew.
  unfold open_session, reset_sess, effective_config, session_options,
    try_except, read_sess, write_sess.
  run_monad. rewrite Hreset. run_monad.
  destruct (sess w) as [old|]; run_monad.
  - destruct (Session_close old reset) as [[[]|e] closed];
      cbn [snd] in Hnew; run_monad;
      change (set_global_jit_level _ _) with session_options_default;
      rewrite Hnew; cbn [is_bound reset_sess_events]; run_done.
  - change (set_global_jit_level _ _) with session_options_default.
    rewrite Hnew. cbn [is_bound reset_sess_events]. run_done.
Qed.

Lemma model_specification_run (w : world) :
  model_specification w
  = (Ok specified_priors,
     {| tf := tf w; trace := trace w ++ prior_events; sess := sess w |}).
Proof.
  transitivity (value model_specification w, after model_specification w);
    [unfold value, after; now destruct (model_specification w)|].
  f_equal. cbn. now rewrite <- !app_assoc.
Qed.

Lemma generate_training_data_run
      (w : world) (hidden : list Z) (random random' : RandomState)
      (centres noise observations : tensor) :
  randint (np_random_RandomState 42) 0 3 1000 = (Ok hidden, random) ->
  ndarray_getitem (np_array2 true_loc_literal) hidden = Ok centres ->
  randn random 1000 2 = (Ok noise, random') ->
  ndarray_add centres (ndarray_astype_float32 noise) = Ok observations ->
  generate_training_data w
  = (Ok observations,
     {| tf := tf w; trace := trace w ++ data_events; sess := sess w |}).
Proof.
  intros Hhidden Hcentres Hnoise Hadd.
  unfold generate_training_data. run_monad.
  change (Z.of_nat components) with 3%Z. change dims with 2.
  rewrite Hhidden. run_monad. rewrite Hcentres. run_monad.
  rewrite Hnoise. run_monad. rewrite Hadd. run_done.
Qed.

Lemma initial_state_run (w : world) (flat : tensor) :
  fill_triangular_inverse (tf_eye dims [components]) = Ok flat ->
  initial_state w
  = (Ok (starting_point flat),
     {| tf := tf w; trace := trace w ++ initial_state_events;
        sess := sess w |}).
Proof.
  intros Hflat. unfold initial_state. run_monad.
  change (tf_fill [components - 1] (np_array0 0))
    with (Ok {| shape := [components - 1]; data := [F32.zero; F32.zero] |}).
  run_monad. rewrite Hflat. run_done.
Qed.

(** [run_chain] hands the closure, as the library calls it back, to
    [tfp.mcmc.sample_chain] inside a [HamiltonianMonteCarlo] kernel. *)
Lemma run_chain_run (target : list tensor -> M tensor)
      (current_state : list tensor) (w : world)
      (c : chain) (inside : list event) (sampled : tf_state) :
  sample_chain
    2000 500
    {| target_log_prob_fn := closure_for_library (sess w) target;
       step_size := (249, -4)%Z;
       num_leapfrog_steps := 5 |}
    current_state (tf w)
  = (Ok ([chain_logits c; chain_loc c; chain_flat_chol_precision c],
         kernel_results c),
     sampled, inside) ->
  run_chain target current_state w
  = (Ok c,
     {| tf := sampled;
        trace := trace w
                 ++ [Call Ext.tfp_mcmc_HamiltonianMonteCarlo;
                     Call Ext.tfp_mcmc_sample_chain]
                 ++ inside ++ chain_binding_events;
        sess := sess w |}).
Proof.
  intros Hchain. unfold run_chain. run_monad. rewrite Hchain. run_monad.
  destruct c. run_done.
Qed.

Lemma make_tril_run (x t : tensor) (w : world) :
  value (make_tril x (Some abs_fn)) w = Ok t ->
  make_tril x (Some abs_fn) w
  = (Ok t,
     {| tf := tf w; trace := trace w ++ make_tril_events; sess := sess w |}).
Proof.
  rewrite make_tril_abs_value. unfold make_tril, abs_fn. run_monad.
  destruct (fill_triangular x) as [y|e]; cbn [rbind]; [|discriminate].
  destruct (matrix_diag_part y) as [d|e]; cbn [rbind]; [|discriminate].
  intros ->. run_done.
Qed.

Lemma reduce_run (c : chain) (r : reductions) (w : world) :
  forward SoftmaxCentered (chain_logits c) = Ok (probs r) ->
  (forall w', value (make_tril (chain_flat_chol_precision c) (Some abs_fn)) w'
              = Ok (chol_precision r)) ->
  tf_reduce_mean (tf_to_float (is_accepted (kernel_results c))) None
  = Ok (acceptance_rate r) ->
  tf_reduce_mean (chain_logits c) (Some 0%Z) = Ok (mean_logits r) ->
  tf_reduce_mean (probs r) (Some 0%Z) = Ok (mean_probs r) ->
  tf_reduce_mean (chain_loc c) (Some 0%Z) = Ok (mean_loc r) ->
  tf_reduce_mean (chol_precision r) (Some 0%Z) = Ok (mean_chol_precision r) ->
  reduce c w
  = (Ok r, {| tf := tf w; trace := trace w ++ reduce_events;
              sess := sess w |}).
Proof.
  intros Hprobs Hchol Hrate Hlogits Hmean Hloc Hprecision.
  unfold reduce. run_monad. rewrite Hprobs. run_monad.
  rewrite (@make_tril_run _ _ _ (Hchol _)). run_monad.
  rewrite Hrate, Hlogits, Hmean, Hloc, Hprecision.
  destruct r. run_done.
Qed.

Lemma execute_run (c : chain) (r : reductions) (w : world)
      (s : Session) (out : list tensor) (final : tf_state) :
  sess w = Some s ->
  Session_run s (fetches c r) (tf w) = (Ok out, final) ->
  length out = 8 ->
  execute c r w
  = (Ok out, {| tf := final; trace := trace w ++ execute_events;
                sess := sess w |}).
Proof.
  intros Hsess Hrun Hout.
  unfold execute, read_sess. run_monad. rewrite Hsess, Hrun.
  destruct out as [|a1 [|a2 [|a3 [|a4 [|a5 [|a6 [|a7 [|a8 [|a9 out]]]]]]]]];
    try discriminate.
  run_monad. rewrite <- Hsess. run_done.
Qed.

Lemma kdeplot_run (loc_ : tensor) (k : nat) (w : world) :
  (forall i, i < dims -> exists a, ndarray_slice loc_ k i = Ok a) ->
  kdeplot loc_ k w
  = (Ok tt, {| tf := tf w;
               trace := trace w ++ [Call Ext.sns_kdeplot; Bind "ax"];
               sess := sess w |}).
Proof.
  intros Hslice.
  destruct (Hslice 0) as [x Hx]; [unfold dims; lia|].
  destruct (Hslice 1) as [y Hy]; [unfold dims; lia|].
  unfold kdeplot. run_monad. rewrite Hx, Hy. run_done.
Qed.

Lemma plot_run (loc_ : tensor) (w : world) :
  (forall k i, k < components -> i < dims ->
               exists a, ndarray_slice loc_ k i = Ok a) ->
  plot loc_ w
  = (Ok tt, {| tf := tf w; trace := trace w ++ plot_events;
               sess := sess w |}).
Proof.
  intros Hslice. unfold plot.
  assert (H0 : 0 < components) by (unfold components; lia).
  assert (H1 : 1 < components) by (unfold components; lia).
  assert (H2 : 2 < components) by (unfold components; lia).
  rewrite (@bind_run _ _ _ _ _ _ _ (@kdeplot_run loc_ 0 _ (fun i => Hslice 0 i H0))).
  rewrite (@bind_run _ _ _ _ _ _ _ (@kdeplot_run loc_ 1 _ (fun i => Hslice 1 i H1))).
  rewrite (@bind_run _ _ _ _ _ _ _ (@kdeplot_run loc_ 2 _ (fun i => Hslice 2 i H2))).
  run_monad. run_done.
Qed.

(** When the library returns, the notebook runs to the end:
    [tfp.mcmc.sample_chain] is called on the kernel of the closure over
    the specified priors and the generated observations, and the run ends
    in the state [sess.run] leaves, with its eight arrays. *)
Lemma notebook_run
      (w : world) (new : Session) (opened : tf_state)
      (observations flat : tensor) (c : chain) (inside : list event)
      (sampled : tf_state) (r : reductions) (out : list tensor)
      (final : tf_state) :
  library_returns w new opened observations flat c inside sampled r out final ->
  notebook w
  = (Ok out,
     {| tf := final;
        trace := trace w
                 ++ events_before_sampling (is_bound (sess w))
                 ++ [Call Ext.tfp_mcmc_sample_chain]
                 ++ inside ++ events_after_sampling;
        sess := Some new |}).
Proof.
  intros ((reset & Hreset & Hnew)
          & (hidden & random & centres & noise & random'
             & Hhidden & Hcentres & Hnoise & Hadd)
          & Hflat & Hchain & Hprobs & Hchol & Hrate & Hlogits & Hmean
          & Hloc & Hprecision & Hrun & Hout & Hslice).
  unfold notebook.
  rewrite (@bind_run _ _ _ _ _ _ _
                     (@open_session_run w reset opened new Hreset Hnew)).
  unfold infer_and_report, print_priors, print_posterior_means.
  run_monad. rewrite model_specification_run. run_monad.
  erewrite generate_training_data_run by eassumption.
  run_monad. erewrite initial_state_run by eassumption. run_monad.
  erewrite run_chain_run by (cbn [tf sess]; exact Hchain).
  run_monad.
  erewrite reduce_run by eassumption.
  run_monad.
  erewrite execute_run by (cbn [tf sess]; first [reflexivity | eassumption]).
  run_monad.
  erewrite plot_run by eassumption.
  destruct (sess w); run_done.
Qed.

(** C3, as amended.  From every state the notebook performs the steps
    [events_before_sampling], the call of [tfp.mcmc.sample_chain], what
    that call reports of the closure it calls back, and
    [events_after_sampling], in this order (all of them when it runs to
    the end, an initial part when a library call raises).  When the
    library calls return, the notebook does run to the end, and
    [tfp.mcmc.sample_chain] is called there on the
    [HamiltonianMonteCarlo] kernel of the closure over the specified
    priors and the generated observations, from the state in which the
    session was opened.  Called back, the closure performs steps of
    [joint_log_prob] only: calls, none of them a reduction, a session
    run, a print or a plot, and no binding.  In the steps before the call the three priors
    are bound first, then [joint_log_prob], then the closure, and
    [tfp.mcmc.sample_chain] is called nowhere else; every reduction, the
    session run, the plotting and the printing of the five reported
    quantities come after that call; the three prints that precede it
    are those of the prior objects, right after the priors are bound; and
    no name bound before the call is bound again after it. *)
Theorem notebook_is_a_straight_line_pipeline (w : world) :
  let b := is_bound (sess w) in
  (exists inside,
      emits_at notebook w
               (events_before_sampling b
                ++ [Call Ext.tfp_mcmc_sample_chain]
                ++ inside ++ events_after_sampling)) /\
  (forall new opened observations flat c inside sampled r out final,
      library_returns w new opened observations flat c inside sampled r out
                      final ->
      notebook w
      = (Ok out,
         {| tf := final;
            trace := trace w
                     ++ events_before_sampling b
                     ++ [Call Ext.tfp_mcmc_sample_chain]
                     ++ inside ++ events_after_sampling;
            sess := Some new |})) /\
  (forall globals prior observations args s,
      exists done rest,
        joint_log_prob_events = done ++ rest /\
        snd (closure_for_library
               globals (unnormalized_posterior_log_prob prior observations)
               args s) = done /\
        (forall a s',
            fst (closure_for_library
                   globals
                   (unnormalized_posterior_log_prob prior observations)
                   args s) = (Ok a, s') -> rest = [])) /\
  (exists i1 i2 i3 i4 i5,
      position (Bind "rv_logits") (events_before_sampling b) = Some i1 /\
      position (Bind "rv_loc") (events_before_sampling b) = Some i2 /\
      position (Bind "rv_precision") (events_before_sampling b) = Some i3 /\
      position (Bind "joint_log_prob") (events_before_sampling b) = Some i4 /\
      position (Bind "unnormalized_posterior_log_prob")
               (events_before_sampling b) = Some i5 /\
      i1 < i2 /\ i2 < i3 /\ i3 < i4 /\ i4 < i5) /\
  occurrences (Call Ext.tfp_mcmc_sample_chain)
              (events_before_sampling b ++ joint_log_prob_events
               ++ events_after_sampling) = 0 /\
  forallb (fun e => negb (is_reduction e || is_run e || is_plot e))
          (events_before_sampling b ++ joint_log_prob_events) = true /\
  forallb (fun e => negb (is_print e)) joint_log_prob_events = true /\
  bound_names joint_log_prob_events = [] /\
  (exists early late,
      events_before_sampling b
      = early ++ [Bind "rv_precision"] ++ print_prior_events ++ late /\
      forallb (fun e => negb (is_print e)) (early ++ late) = true) /\
  filter (fun e => is_reduction e || is_run e || is_plot e || is_print e)
         events_after_sampling
  = [Call Ext.Bijector_forward; Call Ext.tf_to_float;
     Call Ext.tf_reduce_mean; Call Ext.tf_reduce_mean;
     Call Ext.tf_reduce_mean; Call Ext.tf_reduce_mean;
     Call Ext.tf_reduce_mean; Call Ext.Session_run]
    ++ print_posterior_events
    ++ [Call Ext.sns_kdeplot; Call Ext.sns_kdeplot; Call Ext.sns_kdeplot;
        Call Ext.plt_title] /\
  forallb (fun x => negb (existsb (String.eqb x)
                                  (bound_names events_after_sampling)))
          (bound_names (events_before_sampling b)) = true.
Proof.
  cbv zeta. split.
  { destruct (notebook_emits w) as [inside H]. exists inside.
    now rewrite <- app_assoc in H. }
  split; [intros; eapply notebook_run; eassumption|].
  split; [intros; apply closure_for_library_reports|].
  destruct (is_bound (sess w)).
  - split; [do 5 eexists; repeat split; try reflexivity; cbn; lia|].
    split; [reflexivity|]. split; [reflexivity|]. split; [reflexivity|].
    split; [reflexivity|].
    split; [|split; reflexivity].
    exists (setup_events true ++ removelast prior_events),
      ([Bind "joint_log_prob"] ++ data_events
       ++ [Bind "unnormalized_posterior_log_prob"] ++ initial_state_events
       ++ [Call Ext.tfp_mcmc_HamiltonianMonteCarlo]).
    split; reflexivity.
  - split; [do 5 eexists; repeat split; try reflexivity; cbn; lia|].
    split; [reflexivity|]. split; [reflexivity|]. split; [reflexivity|].
    split; [reflexivity|].
    split; [|split; reflexivity].
    exists (setup_events false ++ removelast prior_events),
      ([Bind "joint_log_prob"] ++ data_events
       ++ [Bind "unnormalized_posterior_log_prob"] ++ initial_state_events
       ++ [Call Ext.tfp_mcmc_HamiltonianMonteCarlo]).
    split; reflexivity.
Qed.


End StepFacts.

(** C3 on the small library, whose chain evaluates the closure once:
    every library call returns and the notebook runs to the end. *)
Lemma notebook_is_a_straight_line_pipeline_witness :
  let c :=
    {| chain_logits := {| shape := [2]; data := [F32.zero; F32.zero] |};
       chain_loc := np_array2 true_loc_literal;
       chain_flat_chol_precision := np_zeros [3; 3];
       kernel_results :=
         {| is_accepted := {| bshape := []; bdata := [true] |} |} |} in
  let r :=
    {| acceptance_rate := scalar F32.one;
       mean_logits := chain_logits c;
       mean_probs := chain_logits c;
       mean_loc := chain_loc c;
       mean_chol_precision := np_zeros [3; 2; 2];
       probs := chain_logits c;
       chol_precision := np_zeros [3; 2; 2] |} in
  @library_returns Small.library Small.world0
                   session_options_default 1
                   (np_array2 true_loc_literal) (np_zeros [3; 3])
                   c joint_log_prob_events 1 r (fetches c r) 1 /\
  value notebook Small.world0 = Ok (fetches c r) /\
  trace (after notebook Small.world0)
  = events_before_sampling false
    ++ [Call Ext.tfp_mcmc_sample_chain]
    ++ joint_log_prob_events ++ events_after_sampling.
Proof.
  intros c r.
  assert (H : @library_returns Small.library Small.world0
                session_options_default 1
                (np_array2 true_loc_literal) (np_zeros [3; 3])
                c joint_log_prob_events 1 r (fetches c r) 1).
  { split; [exists 1; split; reflexivity|].
    split; [exists (repeat 0%Z 1000), tt, (np_array2 true_loc_literal),
                   (np_zeros [1000; 2]), tt;
            repeat split; reflexivity|].
    split; [reflexivity|]. split; [vm_compute; reflexivity|].
    split; [reflexivity|]. split; [intros w'; vm_compute; reflexivity|].
    repeat split; try reflexivity.
    intros k i _ _. eexists. reflexivity. }
  split; [exact H|].
  pose proof (proj1 (proj2 (@notebook_is_a_straight_line_pipeline
                              Small.library Small.world0))
                    _ _ _ _ _ _ _ _ _ _ H) as Hrun.
  unfold value, after. rewrite Hrun. split; reflexivity.
Defined.


(** Against C3 as stated ("only afterwards ... printing"): in the run of
    the notebook on the small library, the first call of [print] is step
    33 and the call of [tfp.mcmc.sample_chain] is step 56. *)
Lemma printing_precedes_sampling :
  ~ only_after Ext.print Ext.tfp_mcmc_sample_chain
               (trace (after notebook Small.world0)).
Proof.
  intros H.
  assert (H33 : nth_error (trace (after notebook Small.world0)) 33
                = Some (Call Ext.print)) by (vm_compute; reflexivity).
  assert (H56 : nth_error (trace (after notebook Small.world0)) 56
                = Some (Call Ext.tfp_mcmc_sample_chain))
    by (vm_compute; reflexivity).
  specialize (H 33 56 H33 H56). lia.
Qed.


(** * Further properties of the notebook's functions *)

(** ** Rows of a batch *)

Section ChunkFacts.

Context {A : Type}.

Lemma length_chunks (d k : nat) (l : list A) : length (chunks d k l) = k.
Proof.
  revert l. induction k as [|k IH]; intros l; cbn; [reflexivity|].
  now rewrite IH.
Qed.

Lemma chunks_concat (e : nat) (rows : list (list A)) :
  (forall r, In r rows -> length r = e) ->
  chunks e (length rows) (concat rows) = rows.
Proof.
  induction rows as [|r rows IH]; intros Hrows; cbn; [reflexivity|].
  assert (Hr : length r = e) by (apply Hrows; now left).
  rewrite firstn_app, <- Hr, firstn_all, Nat.sub_diag, firstn_O, app_nil_r.
  rewrite skipn_app, skipn_all, Nat.sub_diag, skipn_O. cbn [app].
  rewrite Hr. f_equal. apply IH. intros r' Hr'. apply Hrows. now right.
Qed.

Lemma chunks_row_length (d k : nat) (l : list A) :
  length l = k * d -> forall r, In r (chunks d k l) -> length r = d.
Proof.
  revert l. induction k as [|k IH]; intros l Hl r Hr; cbn in *; [easy|].
  destruct Hr as [<-|Hr].
  - rewrite length_firstn. lia.
  - apply (IH (skipn d l)); [|exact Hr]. rewrite length_skipn. lia.
Qed.

End ChunkFacts.

Lemma map2_map {A B C D} (f : B -> C -> D) (g : A -> B) (h : A -> C)
      (l : list A) :
  map2 f (map g l) (map h l) = map (fun a => f (g a) (h a)) l.
Proof.
  induction l as [|a l IH]; cbn; [reflexivity|]. now rewrite IH.
Qed.

Lemma shape_eqb_eq (s s' : list nat) : shape_eqb s s' = true -> s = s'.
Proof.
  revert s'. induction s as [|a s IH]; intros [|b s']; cbn; try easy.
  intros H. apply andb_prop in H. destruct H as [Hab Hs].
  apply Nat.eqb_eq in Hab. subst. f_equal. now apply IH.
Qed.

Lemma shape_eqb_neq (s s' : list nat) : s <> s' -> shape_eqb s s' = false.
Proof.
  intros Hne. destruct (shape_eqb s s') eqn:E; [|reflexivity].
  now apply shape_eqb_eq in E.
Qed.

Lemma triangular_root_sound (m n : nat) :
  triangular_root m = Some n -> m = n * (n + 1) / 2.
Proof.
  unfold triangular_root.
  set (r := (Nat.sqrt (8 * m + 1) - 1) / 2).
  destruct (Nat.eqb_spec (r * (r + 1) / 2) m) as [E|E]; [|discriminate].
  intros H. injection H as <-. now symmetry.
Qed.

Lemma triangular_root_none (m : nat) :
  (forall d, m <> d * (d + 1) / 2) -> triangular_root m = None.
Proof.
  intros Hm. destruct (triangular_root m) as [n|] eqn:E; [|reflexivity].
  apply triangular_root_sound in E. now destruct (Hm n).
Qed.

Lemma chunks_concat_map {A B} (e k : nat) (f : A -> list B) (rows : list A) :
  length rows = k ->
  (forall r, In r rows -> length (f r) = e) ->
  chunks e k (concat (map f rows)) = map f rows.
Proof.
  intros <- Hrows. rewrite <- (length_map f rows). apply chunks_concat.
  intros r Hr. apply in_map_iff in Hr. destruct Hr as (a & <- & Ha).
  now apply Hrows.
Qed.

Lemma two_is_not_triangular (d : nat) : 2 <> d * (d + 1) / 2.
Proof.
  intros E. pose proof (triangular_double d) as H. rewrite <- E in H.
  destruct d as [|[|[|d]]]; nia.
Qed.

(** ** [make_tril] beyond one vector and beyond [tf.abs] *)

Section MakeTrilFacts.

Context {L : Library}.

Open Scope notebook_scope.

(** The matrix [make_tril] builds from one row of a batch. *)
Definition tril_abs_row (d : nat) (row : list F32.t) : list F32.t :=
  set_diag_row d (fill_triangular_row d row)
               (map F32.abs (diag_row d d (fill_triangular_row d row))).

Lemma length_tril_abs_row (d : nat) (row : list F32.t) :
  length row = d * (d + 1) / 2 -> length (tril_abs_row d row) = d * d.
Proof.
  intros Hrow. unfold tril_abs_row, set_diag_row.
  now rewrite length_mapi, length_fill_triangular_row.
Qed.

Lemma make_tril_batch_value (K d : nat) (x : tensor) (w : world) :
  shape x = [K; d * (d + 1) / 2] ->
  length (data x) = K * (d * (d + 1) / 2) ->
  value (make_tril x (Some abs_fn)) w
  = Ok {| shape := [K; d; d];
          data := concat (map (tril_abs_row d)
                              (chunks (d * (d + 1) / 2) K (data x))) |}.
Proof.
  intros Hshape Hdata.
  set (m := d * (d + 1) / 2) in *.
  set (rows := chunks m K (data x)).
  assert (Hrows : length rows = K) by apply length_chunks.
  assert (Hrow : forall r, In r rows -> length r = m)
    by (apply chunks_row_length; exact Hdata).
  rewrite make_tril_abs_value. unfold fill_triangular. rewrite Hshape.
  change [K; m] with ([K] ++ [m]).
  rewrite split_last_snoc. unfold m at 1. rewrite triangular_root_complete.
  cbn [rbind numel fold_right]. rewrite Nat.mul_1_r. fold m rows.
  unfold matrix_diag_part. cbn [shape data].
  rewrite split_last2_snoc. cbn [rbind numel fold_right].
  rewrite Nat.mul_1_r, Nat.min_id.
  rewrite (@chunks_concat_map _ _ (d * d) K (fill_triangular_row d) rows
                              Hrows)
    by (intros r Hr; apply length_fill_triangular_row; now apply Hrow).
  unfold set_diag, tf_abs. cbn [shape data].
  rewrite split_last2_snoc, Nat.min_id, shape_eqb_refl.
  cbn [numel fold_right]. rewrite Nat.mul_1_r.
  rewrite (@chunks_concat_map _ _ (d * d) K (fill_triangular_row d) rows
                              Hrows)
    by (intros r Hr; apply length_fill_triangular_row; now apply Hrow).
  rewrite concat_map, !map_map.
  rewrite (@chunks_concat_map
             _ _ d K
             (fun r => map F32.abs (diag_row d d (fill_triangular_row d r)))
             rows Hrows)
    by (intros r Hr; now rewrite length_map, length_diag_row).
  rewrite map2_map. reflexivity.
Qed.

(** X1. A batch [[K, d (d + 1) / 2]] of flat vectors becomes a batch
    [[K, d, d]] of matrices, the [k]-th one being [make_tril] of the
    [k]-th row. *)
Theorem make_tril_batch_rows (K d : nat) (x : tensor) (w : world) :
  shape x = [K; d * (d + 1) / 2] ->
  length (data x) = K * (d * (d + 1) / 2) ->
  exists matrices,
    value (make_tril x (Some abs_fn)) w
    = Ok {| shape := [K; d; d]; data := concat matrices |} /\
    length matrices = K /\
    forall k,
      k < K ->
      value (make_tril
               (vector (nth k (chunks (d * (d + 1) / 2) K (data x)) []))
               (Some abs_fn)) w
      = Ok {| shape := [d; d]; data := nth k matrices [] |}.
Proof.
  intros Hshape Hdata.
  exists (map (tril_abs_row d) (chunks (d * (d + 1) / 2) K (data x))).
  split; [now apply make_tril_batch_value|].
  split; [now rewrite length_map, length_chunks|].
  intros k Hk.
  rewrite (@nth_indep _ (map (tril_abs_row d)
                             (chunks (d * (d + 1) / 2) K (data x)))
                      k [] (tril_abs_row d []))
    by (now rewrite length_map, length_chunks).
  rewrite map_nth. apply make_tril_vector.
  apply (@chunks_row_length _ (d * (d + 1) / 2) K (data x) Hdata), nth_In.
  now rewrite length_chunks.
Qed.

Lemma make_tril_stops_at_fill_triangular
        (x : tensor) (transform_fn : option (tensor -> M tensor)) (w : world) :
  (shape x = [] \/
   exists lead m, shape x = lead ++ [m] /\ forall d, m <> d * (d + 1) / 2) ->
  make_tril x transform_fn w
  = (Raised ValueError,
     {| tf := tf w; trace := trace w ++ [Call Ext.tfd_fill_triangular];
        sess := sess w |}).
Proof.
  intros Hx.
  assert (Hfill : fill_triangular x = Raised ValueError).
  { unfold fill_triangular. destruct Hx as [->|(lead & m & -> & Hm)].
    - reflexivity.
    - now rewrite split_last_snoc, triangular_root_none. }
  unfold make_tril, bind, call_pure, call. now rewrite Hfill.
Qed.

(** X2. On a scalar, or when the last axis is not a triangular number,
    [make_tril] raises [ValueError] from its first call, whatever the
    [transform_fn]; nothing else is called. *)
Theorem make_tril_rejects_non_triangular
        (x : tensor) (transform_fn : option (tensor -> M tensor)) (w : world) :
  (shape x = [] \/
   exists lead m, shape x = lead ++ [m] /\ forall d, m <> d * (d + 1) / 2) ->
  make_tril x transform_fn w
  = (Raised ValueError,
     {| tf := tf w; trace := trace w ++ [Call Ext.tfd_fill_triangular];
        sess := sess w |}).
Proof.
  intros Hx. destruct Hx as [Hscalar|Hlast].
  - apply make_tril_stops_at_fill_triangular. now left.
  - apply make_tril_stops_at_fill_triangular. now right.
Qed.

Lemma diag_row_set_diag_row (d : nat) (y diagonal : list F32.t) :
  length y = d * d -> length diagonal = d ->
  diag_row d d (set_diag_row d y diagonal) = diagonal.
Proof.
  intros Hy Hd. apply nth_ext with (d := F32.zero) (d' := F32.zero).
  - now rewrite length_diag_row.
  - rewrite length_diag_row. intros i Hi.
    now rewrite diag_row_nth, set_diag_row_nth, Nat.eqb_refl.
Qed.

Lemma set_diag_row_fixed (d : nat) (y : list F32.t) :
  length y = d * d ->
  (forall i, i < d ->
             F32.abs (nth (i * d + i) y F32.zero) = nth (i * d + i) y F32.zero) ->
  set_diag_row d y (map F32.abs (diag_row d d y)) = y.
Proof.
  intros Hy Hfixed. apply nth_ext with (d := F32.zero) (d' := F32.zero).
  - unfold set_diag_row. now rewrite length_mapi.
  - unfold set_diag_row at 1. rewrite length_mapi. intros k Hk.
    assert (Hd : d <> 0) by nia.
    pose proof (Nat.div_mod k d Hd) as Hdm.
    pose proof (Nat.mod_upper_bound k d Hd) as Hmod.
    assert (Hdiv : k / d < d) by (apply Nat.Div0.div_lt_upper_bound; lia).
    replace k with (k / d * d + k mod d) at 1 2 by lia.
    rewrite set_diag_row_nth by assumption.
    destruct (Nat.eqb_spec (k / d) (k mod d)) as [E|E].
    + change F32.zero with (F32.abs F32.zero) at 1.
      rewrite map_nth, diag_row_nth, Hfixed by assumption.
      now rewrite <- E.
    + reflexivity.
Qed.

(** X3. [make_tril] "swaps [diag_part(x)] with [f(diag_part(x))]", for any
    [transform_fn] [f] that returns a diagonal of the right shape: the
    diagonal of the result is what [f] returned and every other entry is
    that of [fill_triangular(x)]. *)
Theorem make_tril_swaps_diagonal
        (d : nat) (x : list F32.t) (f : tensor -> M tensor)
        (new_diag : tensor) (w : world) :
  length x = d * (d + 1) / 2 ->
  shape new_diag = [d] ->
  length (data new_diag) = d ->
  (forall y diag w',
      fill_triangular (vector x) = Ok y -> matrix_diag_part y = Ok diag ->
      value (f diag) w' = Ok new_diag) ->
  exists y t,
    fill_triangular (vector x) = Ok y /\
    value (make_tril (vector x) (Some f)) w = Ok t /\
    shape t = [d; d] /\
    matrix_diag_part t = Ok new_diag /\
    forall i j, i < d -> j < d -> i <> j -> entry d t i j = entry d y i j.
Proof.
  intros Hx Hshape Hdata Hf.
  pose proof (length_fill_triangular_row d x Hx) as Hy.
  destruct new_diag as [sh nd]. cbn in Hshape, Hdata. subst sh.
  exists {| shape := [d; d]; data := fill_triangular_row d x |},
         {| shape := [d; d];
            data := set_diag_row d (fill_triangular_row d x) nd |}.
  split; [now apply fill_triangular_vector|].
  split.
  { unfold make_tril. rewrite value_bind, value_call_pure.
    rewrite (fill_triangular_vector d x Hx).
    rewrite value_bind, value_call_pure, (matrix_diag_part_square d _ Hy).
    rewrite value_bind.
    rewrite (Hf _ _ _ (fill_triangular_vector d x Hx)
                (matrix_diag_part_square d _ Hy)).
    rewrite value_call_pure. now apply set_diag_square. }
  split; [reflexivity|].
  split.
  { rewrite matrix_diag_part_square
      by (unfold set_diag_row; now rewrite length_mapi).
    now rewrite diag_row_set_diag_row. }
  intros i j Hi Hj Hij. unfold entry. cbn [data].
  rewrite set_diag_row_nth by assumption.
  now destruct (Nat.eqb_spec i j).
Qed.

(** X4. A [transform_fn] that returns a diagonal of another rank (a
    scalar, a matrix) makes [make_tril] raise [ValueError], from
    [tf.linalg.set_diag], whose rank check is made when the operation is
    built. *)
Theorem make_tril_rejects_misshaped_diagonal
        (d : nat) (x : list F32.t) (f : tensor -> M tensor)
        (new_diag : tensor) (w : world) :
  length x = d * (d + 1) / 2 ->
  length (shape new_diag) <> 1 ->
  (forall diag w', value (f diag) w' = Ok new_diag) ->
  value (make_tril (vector x) (Some f)) w = Raised ValueError.
Proof.
  intros Hx Hrank Hf.
  pose proof (length_fill_triangular_row d x Hx) as Hy.
  unfold make_tril. rewrite value_bind, value_call_pure.
  rewrite (fill_triangular_vector d x Hx).
  rewrite value_bind, value_call_pure, (matrix_diag_part_square d _ Hy).
  rewrite value_bind, Hf, value_call_pure.
  unfold set_diag. cbn [shape data].
  change [d; d] with ([] ++ [d; d]) at 1. rewrite split_last2_snoc.
  rewrite Nat.min_id. cbn [app length].
  rewrite shape_eqb_neq by (intros E; now rewrite E in Hrank).
  now apply Nat.eqb_neq in Hrank as ->.
Qed.

(** X5. When [tf.abs] fixes every diagonal entry of [fill_triangular(x)]
    (none is negative or a negative zero), the default [make_tril(x)] is
    [fill_triangular(x)]: the same as with [transform_fn = None]. *)
Theorem make_tril_fixed_diagonal
        (d : nat) (x : list F32.t) (y : tensor) (w : world) :
  length x = d * (d + 1) / 2 ->
  fill_triangular (vector x) = Ok y ->
  (forall i, i < d -> F32.abs (entry d y i i) = entry d y i i) ->
  value (make_tril (vector x) (Some abs_fn)) w = Ok y /\
  value (make_tril (vector x) (Some abs_fn)) w
  = value (make_tril (vector x) None) w.
Proof.
  intros Hx Hy Hfixed.
  rewrite make_tril_None_value, Hy.
  rewrite (fill_triangular_vector d x Hx) in Hy. injection Hy as <-.
  assert (H : value (make_tril (vector x) (Some abs_fn)) w
              = Ok {| shape := [d; d]; data := fill_triangular_row d x |}).
  { rewrite (make_tril_vector d x w Hx). f_equal. f_equal.
    apply set_diag_row_fixed; [now apply length_fill_triangular_row|].
    exact Hfixed. }
  now split.
Qed.

End MakeTrilFacts.
(** The document's three flat vectors of length three give three two by
    two matrices. *)
Lemma make_tril_batch_rows_witness :
  exists matrices,
    value (make_tril (np_ones [3; 3]) (Some abs_fn)) Small.world0
    = Ok {| shape := [3; 2; 2]; data := concat matrices |} /\
    length matrices = 3.
Proof.
  destruct (@make_tril_batch_rows Small.library 3 2 (np_ones [3; 3])
                                  Small.world0 eq_refl eq_refl)
    as (matrices & Hvalue & Hlength & _).
  exists matrices. split; assumption.
Defined.

Lemma make_tril_rejects_non_triangular_witness :
  make_tril (np_ones [3; 2]) (Some abs_fn) Small.world0
  = (Raised ValueError,
     @Build_world Small.library 0 [Call Ext.tfd_fill_triangular] None).
Proof.
  apply (@make_tril_rejects_non_triangular
           Small.library (np_ones [3; 2]) (Some abs_fn) Small.world0).
  right. exists [3], 2. split; [reflexivity | exact two_is_not_triangular].
Defined.

(** A [transform_fn] that overwrites the diagonal with ones. *)
Lemma make_tril_swaps_diagonal_witness :
  let x := [F32.opp F32.one; F32.one; S754_nan] in
  let ones := vector [F32.one; F32.one] in
  exists t,
    value (make_tril (vector x) (Some (fun _ => ret ones))) Small.world0
    = Ok t /\
    matrix_diag_part t = Ok ones.
Proof.
  intros x ones.
  destruct (@make_tril_swaps_diagonal
              Small.library 2 x (fun _ => ret ones) ones Small.world0
              eq_refl eq_refl eq_refl (fun _ _ _ _ _ => eq_refl))
    as (y & t & _ & Ht & _ & Hdiag & _).
  exists t. split; assumption.
Defined.

(** A [transform_fn] that returns a scalar. *)
Lemma make_tril_rejects_misshaped_diagonal_witness :
  value (make_tril (vector [F32.one; F32.one; F32.one])
                   (Some (fun _ => ret (scalar F32.one)))) Small.world0
  = Raised ValueError.
Proof.
  apply (@make_tril_rejects_misshaped_diagonal
           Small.library 2 [F32.one; F32.one; F32.one]
           (fun _ => ret (scalar F32.one)) (scalar F32.one) Small.world0).
  - reflexivity.
  - cbn. discriminate.
  - reflexivity.
Defined.

(** The flat vector of ones. *)
Lemma make_tril_fixed_diagonal_witness :
  let x := [F32.one; F32.one; F32.one] in
  value (make_tril (vector x) (Some abs_fn)) Small.world0
  = value (make_tril (vector x) None) Small.world0.
Proof.
  intros x.
  refine (proj2 (@make_tril_fixed_diagonal
                   Small.library 2 x
                   {| shape := [2; 2];
                      data := [F32.one; F32.zero; F32.one; F32.one] |}
                   Small.world0 eq_refl eq_refl _)).
  intros [|[|i]] Hi; [reflexivity | reflexivity | lia].
Defined.

(** ** [joint_log_prob] on bad arguments and on batches *)

Section Map2Facts.

Context {T : Type}.

Lemma length_map2_app (rows rows' : list (list T)) :
  length (map2 (@app T) rows rows') = Nat.min (length rows) (length rows').
Proof.
  revert rows'. induction rows as [|r rows IH]; intros [|r' rows']; cbn;
    try reflexivity.
  now rewrite IH.
Qed.

Lemma map2_app_row_length (rows rows' : list (list T)) (a b : nat) :
  (forall r, In r rows -> length r = a) ->
  (forall r, In r rows' -> length r = b) ->
  forall r, In r (map2 (@app T) rows rows') -> length r = a + b.
Proof.
  revert rows'. induction rows as [|r0 rows IH]; intros [|r0' rows'] Ha Hb r;
    cbn; try easy.
  intros [<-|Hr].
  - rewrite length_app. f_equal; [apply Ha | apply Hb]; now left.
  - apply (IH rows'); [| |exact Hr]; intros r' Hr'.
    + apply Ha. now right.
    + apply Hb. now right.
Qed.

Lemma map2_app_nil (rows : list (list T)) :
  map2 (@app T) rows (repeat [] (length rows)) = rows.
Proof.
  induction rows as [|r rows IH]; cbn; [reflexivity|].
  now rewrite app_nil_r, IH.
Qed.

End Map2Facts.

Section JointFacts.

Context {L : Library}.

Open Scope notebook_scope.

Lemma emits_at_returned {A} (m : M A) (w : world) (tr : list event) (a : A) :
  emits_at m w tr -> value m w = Ok a -> trace (after m w) = trace w ++ tr.
Proof.
  intros (done & rest & -> & Htrace & Hrest) Hvalue.
  now rewrite (Hrest a Hvalue), app_nil_r.
Qed.

(** X7. [joint_log_prob] checks its arguments before it builds a distribution
    or evaluates a density: a [flat_chol_precision] that is a scalar or
    whose last axis is not a triangular number raises [ValueError] from
    the very first call, and scalar [logits] raise [IndexError] from the
    padding, right after [make_tril]. *)
Theorem joint_log_prob_fails_fast
        (prior : priors) (observations logits loc flat_chol_precision : tensor)
        (w : world) :
  ((shape flat_chol_precision = [] \/
    exists lead m, shape flat_chol_precision = lead ++ [m] /\
                   forall d, m <> d * (d + 1) / 2) ->
   joint_log_prob prior observations logits loc flat_chol_precision w
   = (Raised ValueError,
      {| tf := tf w; trace := trace w ++ [Call Ext.tfd_fill_triangular];
         sess := sess w |})) /\
  (forall chol_precision,
      value (make_tril flat_chol_precision (Some abs_fn)) w
      = Ok chol_precision ->
      shape logits = [] ->
      value (joint_log_prob prior observations logits loc flat_chol_precision)
            w = Raised IndexError /\
      trace (after (joint_log_prob prior observations logits loc
                                   flat_chol_precision) w)
      = trace w ++ make_tril_events ++ [Call Ext.distribution_util_pad]).
Proof.
  split.
  - intros Hflat. unfold joint_log_prob, bind.
    now rewrite make_tril_stops_at_fill_triangular.
  - intros chol_precision Hchol Hlogits.
    assert (Hpad : pad logits false true F32.zero 1 = Raised IndexError)
      by (unfold pad; now rewrite Hlogits).
    unfold joint_log_prob. split.
    + now rewrite value_bind, Hchol, value_bind, value_call_pure, Hpad.
    + rewrite after_bind, Hchol, after_bind, value_call_pure, Hpad.
      unfold after at 1, call_pure, call. cbn [snd trace].
      rewrite (emits_at_returned (make_tril_emits flat_chol_precision w) Hchol).
      now rewrite app_assoc.
Qed.

Lemma concat_reduce_batch
      (kernel : list F32.t -> F32.t) (lead : list nat) (n k k' : nat)
      (p1 p2 p3 p4 : tensor) :
  shape p1 = lead ++ [n] -> length (data p1) = numel lead * n ->
  shape p2 = lead -> length (data p2) = numel lead * 1 ->
  shape p3 = lead ++ [k] -> length (data p3) = numel lead * k ->
  shape p4 = lead ++ [k'] -> length (data p4) = numel lead * k' ->
  (parts <-- tf_concat_last [p1; expand_last p2; p3; p4] ;;;
   tf_reduce_sum_last kernel parts)%result
  = Ok {| shape := lead;
          data :=
            map kernel
                (map2 (@app F32.t) (chunks n (numel lead) (data p1))
                   (map2 (@app F32.t) (chunks 1 (numel lead) (data p2))
                      (map2 (@app F32.t) (chunks k (numel lead) (data p3))
                                         (chunks k' (numel lead) (data p4))))) |}.
Proof.
  intros H1 D1 H2 D2 H3 D3 H4 D4.
  unfold tf_concat_last, expand_last. cbn [concat_rows shape data].
  rewrite H1, H2, H3, H4, !split_last_snoc, !shape_eqb_refl.
  set (N := numel lead) in *.
  replace (repeat [] N) with (repeat (@nil F32.t) (length (chunks k' N (data p4))))
    by (now rewrite length_chunks).
  rewrite map2_app_nil. cbn [rbind].
  unfold tf_reduce_sum_last. cbn [shape data].
  rewrite split_last_snoc. fold N. f_equal. f_equal. f_equal.
  set (rows := map2 (@app F32.t) _ _).
  assert (Hlen : length rows = N).
  { unfold rows. rewrite !length_map2_app, !length_chunks. lia. }
  rewrite <- Hlen. apply chunks_concat.
  unfold rows. rewrite Nat.add_0_r.
  repeat apply map2_app_row_length; now apply chunks_row_length.
Qed.

(** X8. On a batch, [joint_log_prob] returns one value per batch member: when
    the four log-densities share the leading shape [lead] (the one of the
    logits having exactly that shape), the result has shape [lead] and
    its [i]-th entry reduces the [i]-th rows of the four parts, in
    order. *)
Theorem joint_log_prob_batch
        (prior : priors) (observations logits loc flat_chol_precision : tensor)
        (w : world) (lead : list nat) (n k k' : nat)
        (chol_precision padded p1 p2 p3 p4 : tensor) :
  value (make_tril flat_chol_precision (Some abs_fn)) w = Ok chol_precision ->
  pad logits false true F32.zero 1 = Ok padded ->
  log_prob
    (MixtureSameFamily
       (Categorical padded)
       (TransformedDistribution
          (Independent (Normal loc (tf_ones_like loc)) 1)
          (Invert (Affine chol_precision))))
    observations = Ok p1 ->
  log_prob (rv_logits prior) logits = Ok p2 ->
  log_prob (rv_loc prior) loc = Ok p3 ->
  log_prob (rv_precision prior) chol_precision = Ok p4 ->
  shape p1 = lead ++ [n] -> length (data p1) = numel lead * n ->
  shape p2 = lead -> length (data p2) = numel lead * 1 ->
  shape p3 = lead ++ [k] -> length (data p3) = numel lead * k ->
  shape p4 = lead ++ [k'] -> length (data p4) = numel lead * k' ->
  value (joint_log_prob prior observations logits loc flat_chol_precision) w
  = Ok {| shape := lead;
          data :=
            map reduce_sum_kernel
                (map2 (@app F32.t) (chunks n (numel lead) (data p1))
                   (map2 (@app F32.t) (chunks 1 (numel lead) (data p2))
                      (map2 (@app F32.t) (chunks k (numel lead) (data p3))
                                         (chunks k' (numel lead) (data p4))))) |}.
Proof.
  intros Hchol Hpad Hp1 Hp2 Hp3 Hp4 H1 D1 H2 D2 H3 D3 H4 D4.
  rewrite joint_log_prob_value, Hchol. cbn [rbind].
  rewrite Hpad. cbn [rbind]. rewrite Hp1. cbn [rbind].
  rewrite Hp2. cbn [rbind]. rewrite Hp3. cbn [rbind]. rewrite Hp4.
  cbn [rbind]. now apply concat_reduce_batch.
Qed.

(** X9. The parts must align: when the log-density of the logits does not
    have the leading shape of the log-density of the observations,
    [joint_log_prob] raises [ValueError] (from [tf.concat]). *)
Theorem joint_log_prob_rejects_misaligned_parts
        (prior : priors) (observations logits loc flat_chol_precision : tensor)
        (w : world) (lead : list nat) (n : nat)
        (chol_precision padded p1 p2 p3 p4 : tensor) :
  value (make_tril flat_chol_precision (Some abs_fn)) w = Ok chol_precision ->
  pad logits false true F32.zero 1 = Ok padded ->
  log_prob
    (MixtureSameFamily
       (Categorical padded)
       (TransformedDistribution
          (Independent (Normal loc (tf_ones_like loc)) 1)
          (Invert (Affine chol_precision))))
    observations = Ok p1 ->
  log_prob (rv_logits prior) logits = Ok p2 ->
  log_prob (rv_loc prior) loc = Ok p3 ->
  log_prob (rv_precision prior) chol_precision = Ok p4 ->
  shape p1 = lead ++ [n] ->
  shape p2 <> lead ->
  value (joint_log_prob prior observations logits loc flat_chol_precision) w
  = Raised ValueError.
Proof.
  intros Hchol Hpad Hp1 Hp2 Hp3 Hp4 H1 H2.
  rewrite joint_log_prob_value, Hchol. cbn [rbind].
  rewrite Hpad. cbn [rbind]. rewrite Hp1. cbn [rbind].
  rewrite Hp2. cbn [rbind]. rewrite Hp3. cbn [rbind]. rewrite Hp4.
  cbn [rbind].
  unfold tf_concat_last, expand_last. cbn [concat_rows shape data].
  rewrite H1, !split_last_snoc, shape_eqb_refl.
  rewrite shape_eqb_neq by congruence. reflexivity.
Qed.

End JointFacts.

(** [joint_log_prob] on a non-triangular [flat_chol_precision], and on
    scalar logits. *)
Lemma joint_log_prob_fails_fast_witness :
  let prior :=
    {| rv_logits := Dirichlet (np_ones [3]);
       rv_loc := Dirichlet (np_ones [3]);
       rv_precision := Dirichlet (np_ones [3]) |} in
  value (joint_log_prob prior (np_zeros [2; 2]) (np_zeros [2])
                        (np_zeros [3; 2]) (np_ones [3; 2])) Small.world0
  = Raised ValueError /\
  value (joint_log_prob prior (np_zeros [2; 2]) (scalar F32.zero)
                        (np_zeros [3; 2]) (np_ones [3; 3])) Small.world0
  = Raised IndexError.
Proof.
  intros prior. split.
  - unfold value.
    rewrite (proj1 (@joint_log_prob_fails_fast
                      Small.library prior (np_zeros [2; 2]) (np_zeros [2])
                      (np_zeros [3; 2]) (np_ones [3; 2]) Small.world0)).
    + reflexivity.
    + right. exists [3], 2.
      split; [reflexivity | exact two_is_not_triangular].
  - apply (proj2 (@joint_log_prob_fails_fast
                    Small.library prior (np_zeros [2; 2]) (scalar F32.zero)
                    (np_zeros [3; 2]) (np_ones [3; 3]) Small.world0)
                 {| shape := [3; 2; 2];
                    data := [F32.one; F32.zero; F32.one; F32.one;
                             F32.one; F32.zero; F32.one; F32.one;
                             F32.one; F32.zero; F32.one; F32.one] |});
      reflexivity.
Defined.

(** Two batch members, with a library whose densities return their
    argument. *)
Lemma joint_log_prob_batch_witness :
  let prior :=
    {| rv_logits := Dirichlet (np_ones [3]);
       rv_loc := Dirichlet (np_ones [3]);
       rv_precision := Dirichlet (np_ones [3]) |} in
  exists t,
    value (joint_log_prob prior (np_zeros [2; 4]) (np_zeros [2])
                          (np_zeros [2; 3]) (np_ones [3]))
          (Faulty.bound_world 0) = Ok t /\
    shape t = [2] /\ length (data t) = 2.
Proof.
  intros prior. eexists. split.
  - apply (@joint_log_prob_batch
             Faulty.library prior (np_zeros [2; 4]) (np_zeros [2])
             (np_zeros [2; 3]) (np_ones [3]) (Faulty.bound_world 0)
             [2] 4 3 2
             {| shape := [2; 2];
                data := [F32.one; F32.zero; F32.one; F32.one] |}
             (np_zeros [3]) (np_zeros [2; 4]) (np_zeros [2])
             (np_zeros [2; 3])
             {| shape := [2; 2];
                data := [F32.one; F32.zero; F32.one; F32.one] |});
      reflexivity.
  - split; reflexivity.
Defined.

(** Three logits densities against two observation densities. *)
Lemma joint_log_prob_rejects_misaligned_parts_witness :
  let prior :=
    {| rv_logits := Dirichlet (np_ones [3]);
       rv_loc := Dirichlet (np_ones [3]);
       rv_precision := Dirichlet (np_ones [3]) |} in
  value (joint_log_prob prior (np_zeros [2; 4]) (np_zeros [3])
                        (np_zeros [2; 3]) (np_ones [3]))
        (Faulty.bound_world 0) = Raised ValueError.
Proof.
  intros prior.
  apply (@joint_log_prob_rejects_misaligned_parts
           Faulty.library prior (np_zeros [2; 4]) (np_zeros [3])
           (np_zeros [2; 3]) (np_ones [3]) (Faulty.bound_world 0)
           [2] 4
           {| shape := [2; 2];
              data := [F32.one; F32.zero; F32.one; F32.one] |}
           (np_zeros [4]) (np_zeros [2; 4]) (np_zeros [3])
           (np_zeros [2; 3])
           {| shape := [2; 2];
              data := [F32.one; F32.zero; F32.one; F32.one] |});
    try reflexivity.
  cbn. discriminate.
Defined.

(** ** [reset_sess] when the library fails, and when it is called again *)

Section ResetFacts.

Context {L : Library}.

Open Scope notebook_scope.

Ltac reset_sess_run :=
  unfold value, after, reset_sess, effective_config, bind, session_options,
    call_pure, call, ret, try_except, read_sess, write_sess in *.

(** X11. An exception of [tf.reset_default_graph] leaves [reset_sess] at once:
    the old session is neither closed nor replaced, and [sess] is bound as
    before. *)
Theorem reset_sess_propagates_reset_failure
        (config : option ConfigProto) (w : world) (e : exn) (s1 : tf_state) :
  tf_reset_default_graph (tf (after (effective_config config) w))
  = (Raised e, s1) ->
  value (reset_sess config) w = Raised e /\
  sess (after (reset_sess config) w) = sess w /\
  tf (after (reset_sess config) w) = s1 /\
  trace (after (reset_sess config) w)
  = trace w
    ++ (if is_bound config then [] else [Call Ext.tf_ConfigProto])
    ++ [Call Ext.tf_reset_default_graph].
Proof.
  intros Hreset. reset_sess_run.
  destruct config as [c|]; cbn in *; rewrite Hreset; cbn;
    rewrite <- ?app_assoc; auto.
Qed.

(** X12. When the constructor of the new session raises, the exception leaves
    [reset_sess] after the old session has been closed: [sess] still
    names the closed session. *)
Theorem reset_sess_leaves_closed_session
        (config : option ConfigProto) (w : world) (cfg : ConfigProto)
        (old : Session) (r : result unit) (e : exn) (s1 s2 s3 : tf_state) :
  value (effective_config config) w = Ok cfg ->
  tf_reset_default_graph (tf (after (effective_config config) w))
  = (Ok tt, s1) ->
  sess w = Some old ->
  Session_close old s1 = (r, s2) ->
  tf_InteractiveSession cfg s2 = (Raised e, s3) ->
  value (reset_sess config) w = Raised e /\
  sess (after (reset_sess config) w) = Some old /\
  tf (after (reset_sess config) w) = s3 /\
  trace (after (reset_sess config) w)
  = trace w
    ++ (if is_bound config then [] else [Call Ext.tf_ConfigProto])
    ++ [Call Ext.tf_reset_default_graph; Call Ext.Session_close;
        Call Ext.tf_InteractiveSession].
Proof.
  intros Hcfg Hreset Hold Hclose Hnew. reset_sess_run.
  destruct config as [c|]; cbn in *; injection Hcfg as <-;
    rewrite Hreset; cbn; rewrite Hold; cbn; rewrite Hclose;
    destruct r as [[]|e']; cbn; rewrite Hnew; cbn;
    rewrite <- ?app_assoc; auto.
Qed.

Lemma reset_sess_returns_bound (config : option ConfigProto) (w : world) :
  value (reset_sess config) w = Ok tt ->
  exists s, sess (after (reset_sess config) w) = Some s.
Proof.
  reset_sess_run.
  destruct config as [c|]; cbn;
    destruct (tf_reset_default_graph (tf w)) as [[[]|e] s1]; cbn;
    try discriminate;
    destruct (sess w) as [old|]; cbn;
    repeat match goal with
      | |- context [Session_close ?o ?s] =>
          destruct (Session_close o s) as [[[]|?] ?]; cbn
      | |- context [tf_InteractiveSession ?c ?s] =>
          destruct (tf_InteractiveSession c s) as [[?|?] ?]; cbn
      end;
    try discriminate; eauto.
Qed.

(** X13. A second [reset_sess] closes the session that the first one bound,
    then replaces it. *)
Theorem reset_sess_again_closes_previous
        (config config' : option ConfigProto) (w : world) :
  value (reset_sess config) w = Ok tt ->
  exists previous,
    sess (after (reset_sess config) w) = Some previous /\
    forall cfg s1 new s3,
      value (effective_config config') (after (reset_sess config) w)
      = Ok cfg ->
      tf_reset_default_graph
        (tf (after (effective_config config') (after (reset_sess config) w)))
      = (Ok tt, s1) ->
      tf_InteractiveSession cfg (snd (Session_close previous s1))
      = (Ok new, s3) ->
      sess (after (reset_sess config') (after (reset_sess config) w))
      = Some new /\
      trace (after (reset_sess config') (after (reset_sess config) w))
      = trace (after (reset_sess config) w)
        ++ (if is_bound config' then [] else [Call Ext.tf_ConfigProto])
        ++ [Call Ext.tf_reset_default_graph; Call Ext.Session_close;
            Call Ext.tf_InteractiveSession; Bind "sess"].
Proof.
  intros Hfirst.
  destruct (reset_sess_returns_bound config w Hfirst) as [previous Hbound].
  exists previous. split; [exact Hbound|].
  set (w1 := after (reset_sess config) w) in *. clearbody w1.
  intros cfg s1 new s3 Hcfg Hreset Hnew. reset_sess_run.
  destruct config' as [c|]; cbn in *; injection Hcfg as <-;
    rewrite Hreset; cbn; rewrite Hbound; cbn;
    destruct (Session_close previous s1) as [[[]|e'] s2]; cbn in *;
    rewrite Hnew; cbn; rewrite <- ?app_assoc; auto.
Qed.

End ResetFacts.

(** The graph reset raises. *)
Lemma reset_sess_propagates_reset_failure_witness :
  value (reset_sess None) (Faulty.bound_world 1) = Raised (LibraryError 1) /\
  sess (after (reset_sess None) (Faulty.bound_world 1))
  = Some ConfigProto_default.
Proof.
  destruct (@reset_sess_propagates_reset_failure
              Faulty.library None (Faulty.bound_world 1) (LibraryError 1) 1
              eq_refl)
    as (Hvalue & Hsess & _).
  split; assumption.
Defined.

(** The session constructor raises. *)
Lemma reset_sess_leaves_closed_session_witness :
  value (reset_sess None) (Faulty.bound_world 2) = Raised (LibraryError 2) /\
  sess (after (reset_sess None) (Faulty.bound_world 2))
  = Some ConfigProto_default /\
  In (Call Ext.Session_close)
     (trace (after (reset_sess None) (Faulty.bound_world 2))).
Proof.
  destruct (@reset_sess_leaves_closed_session
              Faulty.library None (Faulty.bound_world 2)
              {| log_device_placement := true;
                 gpu_options := {| allow_growth := true |};
                 graph_options :=
                   {| optimizer_options := {| global_jit_level := ON_1 |} |} |}
              ConfigProto_default (Ok tt) (LibraryError 2) 2 2 2
              eq_refl eq_refl eq_refl eq_refl eq_refl)
    as (Hvalue & Hsess & _ & Htrace).
  split; [exact Hvalue|]. split; [exact Hsess|].
  rewrite Htrace. cbn. auto.
Defined.

(** Two calls in a row, from a state where [sess] is unbound. *)
Lemma reset_sess_again_closes_previous_witness :
  In (Call Ext.Session_close)
     (trace (after (reset_sess None) (after (reset_sess None) Small.world0))).
Proof.
  destruct (@reset_sess_again_closes_previous
              Small.library None None Small.world0 eq_refl)
    as (previous & _ & H).
  destruct (H {| log_device_placement := true;
                 gpu_options := {| allow_growth := true |};
                 graph_options :=
                   {| optimizer_options := {| global_jit_level := ON_1 |} |} |}
              2
              {| log_device_placement := true;
                 gpu_options := {| allow_growth := true |};
                 graph_options :=
                   {| optimizer_options := {| global_jit_level := ON_1 |} |} |}
              2 eq_refl eq_refl eq_refl)
    as (_ & Htrace).
  rewrite Htrace. apply in_or_app. right. cbn. auto.
Defined.

(** ** The session of the notebook *)

Section SessionInvariant.

Context {L : Library}.

Open Scope notebook_scope.

Lemma keeps_sess_bind {A B} (m : M A) (k : A -> M B) :
  keeps_sess m -> (forall a, keeps_sess (k a)) -> keeps_sess (bind m k).
Proof.
  intros Hm Hk w. rewrite after_bind.
  destruct (value m w) as [a|e]; [rewrite Hk|]; apply Hm.
Qed.

Lemma keeps_sess_call {A} (f : Ext.name) (op : tf_state -> result A * tf_state) :
  keeps_sess (call f op).
Proof. intros w. unfold after, call. now destruct (op (tf w)). Qed.

Lemma keeps_sess_ret {A} (a : A) : keeps_sess (ret a).
Proof. now intros w. Qed.

Lemma keeps_sess_raise {A} (e : exn) : keeps_sess (@raise L A e).
Proof. now intros w. Qed.

Lemma keeps_sess_lift {A} (r : result A) : keeps_sess (lift r).
Proof. now intros w. Qed.

Lemma keeps_sess_log (e : event) : keeps_sess (log e).
Proof. now intros w. Qed.

Lemma keeps_sess_read_sess : keeps_sess read_sess.
Proof.
  intros w. unfold after, read_sess. now destruct (sess w) eqn:E.
Qed.

Lemma keeps_sess_callback {A B} (f : A -> M B) : keeps_sess (callback f).
Proof. now intros w. Qed.

Lemma keeps_sess_call_with_callbacks {A} (f : Ext.name)
      (op : tf_state -> result A * tf_state * list event) :
  keeps_sess (call_with_callbacks f op).
Proof.
  intros w. unfold after, call_with_callbacks.
  now destruct (op (tf w)) as [[r s] inside].
Qed.

Ltac head_constant t :=
  match t with
  | ?f _ => head_constant f
  | _ => t
  end.

Ltac keeps_sess_step :=
  match goal with
  | |- keeps_sess (bind _ _) => apply keeps_sess_bind; [|intro]
  | |- keeps_sess (call_pure _ _) => apply keeps_sess_call
  | |- keeps_sess (call _ _) => apply keeps_sess_call
  | |- keeps_sess (call_with_callbacks _ _) =>
      apply keeps_sess_call_with_callbacks
  | |- keeps_sess (ret _) => apply keeps_sess_ret
  | |- keeps_sess (lift _) => apply keeps_sess_lift
  | |- keeps_sess (log _) => apply keeps_sess_log
  | |- keeps_sess (raise _) => apply keeps_sess_raise
  | |- keeps_sess read_sess => apply keeps_sess_read_sess
  | |- keeps_sess (callback _) => apply keeps_sess_callback
  | |- keeps_sess (match ?x with _ => _ end) => destruct x
  | |- keeps_sess ?m =>
      let h := head_constant m in unfold h; cbv beta iota zeta
  end.

Lemma infer_and_report_keeps_sess : keeps_sess infer_and_report.
Proof. repeat keeps_sess_step. Qed.

Lemma open_session_returns_bound (w : world) :
  value open_session w = Ok tt ->
  exists s, sess (after open_session w) = Some s.
Proof.
  unfold open_session, def.
  rewrite !value_bind, !after_bind, !value_call_pure. cbn [value log fst].
  intros Hreset. now apply reset_sess_returns_bound.
Qed.

(** X14. Only [reset_sess] binds [sess]: the cells after the first
    [reset_sess()] never rebind it, so once that call has returned, the
    session it opened is the one the notebook runs in and the one [sess]
    names at the end, however the later cells end. *)
Theorem notebook_runs_in_the_session_it_opened (w : world) :
  keeps_sess infer_and_report /\
  (value open_session w = Ok tt ->
   exists s,
     sess (after open_session w) = Some s /\
     sess (after notebook w) = Some s).
Proof.
  split; [apply infer_and_report_keeps_sess|].
  intros Hopen.
  destruct (open_session_returns_bound w Hopen) as [s Hs].
  exists s. split; [exact Hs|].
  unfold notebook. rewrite after_bind, Hopen.
  now rewrite infer_and_report_keeps_sess.
Qed.

End SessionInvariant.

(** The run of the notebook on the small library. *)
Lemma notebook_runs_in_the_session_it_opened_witness :
  exists s,
    sess (after open_session Small.world0) = Some s /\
    sess (after notebook Small.world0) = Some s.
Proof.
  exact (proj2 (@notebook_runs_in_the_session_it_opened
                  Small.library Small.world0) eq_refl).
Defined.

(** ** The signs of the diagonal *)

Lemma nth_map_abs (l : list F32.t) (i : nat) :
  nth i (map F32.abs l) F32.zero = F32.abs (nth i l F32.zero).
Proof. change F32.zero with (F32.abs F32.zero) at 1. apply map_nth. Qed.

Lemma tril_abs_row_forgets_signs (d : nat) (x x' : list F32.t) :
  length x = d * (d + 1) / 2 -> length x' = d * (d + 1) / 2 ->
  (forall i j, i < d -> j < d -> i <> j ->
               nth (i * d + j) (fill_triangular_row d x) F32.zero
               = nth (i * d + j) (fill_triangular_row d x') F32.zero) ->
  (forall i, i < d ->
             F32.abs (nth (i * d + i) (fill_triangular_row d x) F32.zero)
             = F32.abs (nth (i * d + i) (fill_triangular_row d x') F32.zero)) ->
  tril_abs_row d x = tril_abs_row d x'.
Proof.
  intros Hx Hx' Hoff Hdiag.
  pose proof (length_tril_abs_row d x Hx) as Hlen.
  pose proof (length_tril_abs_row d x' Hx') as Hlen'.
  apply nth_ext with (d := F32.zero) (d' := F32.zero); [congruence|].
  rewrite Hlen. intros k Hk.
  assert (Hd : d <> 0) by nia.
  pose proof (Nat.div_mod k d Hd) as Hdm.
  pose proof (Nat.mod_upper_bound k d Hd) as Hmod.
  assert (Hdiv : k / d < d) by (apply Nat.Div0.div_lt_upper_bound; lia).
  replace k with (k / d * d + k mod d) by lia.
  unfold tril_abs_row.
  rewrite !set_diag_row_nth
    by (assumption || now apply length_fill_triangular_row).
  destruct (Nat.eqb_spec (k / d) (k mod d)) as [E|E].
  - rewrite !nth_map_abs, !diag_row_nth by assumption. now apply Hdiag.
  - now apply Hoff.
Qed.

Section DiagonalSigns.

Context {L : Library}.

Open Scope notebook_scope.

(** X6. [make_tril] keeps of the diagonal of [fill_triangular(x)] only the
    absolute values: two flat vectors whose triangles agree off the
    diagonal and agree up to sign on it give the same matrix. *)
Theorem make_tril_forgets_diagonal_signs
        (d : nat) (x x' : list F32.t) (y y' : tensor) (w : world) :
  length x = d * (d + 1) / 2 -> length x' = d * (d + 1) / 2 ->
  fill_triangular (vector x) = Ok y ->
  fill_triangular (vector x') = Ok y' ->
  (forall i j, i < d -> j < d -> i <> j -> entry d y i j = entry d y' i j) ->
  (forall i, i < d -> F32.abs (entry d y i i) = F32.abs (entry d y' i i)) ->
  value (make_tril (vector x) (Some abs_fn)) w
  = value (make_tril (vector x') (Some abs_fn)) w.
Proof.
  intros Hx Hx' Hy Hy' Hoff Hdiag.
  rewrite (fill_triangular_vector d x Hx) in Hy. injection Hy as <-.
  rewrite (fill_triangular_vector d x' Hx') in Hy'. injection Hy' as <-.
  rewrite (make_tril_vector d x w Hx), (make_tril_vector d x' w Hx').
  do 2 f_equal. now apply tril_abs_row_forgets_signs.
Qed.

(** X10. The joint log-density sees [flat_chol_precision] through [make_tril]
    only, so it takes the same value at two flat vectors that differ in
    the signs of the entries that land on the diagonal. *)
Theorem joint_log_prob_ignores_diagonal_signs
        (prior : priors) (observations logits loc : tensor)
        (d : nat) (x x' : list F32.t) (y y' : tensor) (w : world) :
  length x = d * (d + 1) / 2 -> length x' = d * (d + 1) / 2 ->
  fill_triangular (vector x) = Ok y ->
  fill_triangular (vector x') = Ok y' ->
  (forall i j, i < d -> j < d -> i <> j -> entry d y i j = entry d y' i j) ->
  (forall i, i < d -> F32.abs (entry d y i i) = F32.abs (entry d y' i i)) ->
  value (joint_log_prob prior observations logits loc (vector x)) w
  = value (joint_log_prob prior observations logits loc (vector x')) w.
Proof.
  intros Hx Hx' Hy Hy' Hoff Hdiag.
  rewrite (fill_triangular_vector d x Hx) in Hy. injection Hy as <-.
  rewrite (fill_triangular_vector d x' Hx') in Hy'. injection Hy' as <-.
  rewrite !joint_log_prob_value.
  rewrite (make_tril_vector d x w Hx), (make_tril_vector d x' w Hx').
  pose proof (@tril_abs_row_forgets_signs d x x' Hx Hx' Hoff Hdiag) as E.
  unfold tril_abs_row in E. now rewrite E.
Qed.

End DiagonalSigns.

Lemma flipped_entries_agree :
  let x := [F32.opp F32.one; F32.one; F32.one] in
  let x' := [F32.one; F32.one; F32.one] in
  let y := {| shape := [2; 2];
              data := [F32.one; F32.zero; F32.one; F32.opp F32.one] |} in
  let y' := {| shape := [2; 2];
               data := [F32.one; F32.zero; F32.one; F32.one] |} in
  (forall i j, i < 2 -> j < 2 -> i <> j -> entry 2 y i j = entry 2 y' i j) /\
  (forall i, i < 2 -> F32.abs (entry 2 y i i) = F32.abs (entry 2 y' i i)).
Proof.
  cbv zeta. split.
  - intros [|[|i]] [|[|j]] Hi Hj Hij; try reflexivity; lia.
  - intros [|[|i]] Hi; try reflexivity; lia.
Qed.

(** The flat vectors [(-1, 1, 1)] and [(1, 1, 1)]. *)
Lemma make_tril_forgets_diagonal_signs_witness :
  value (make_tril (vector [F32.opp F32.one; F32.one; F32.one])
                   (Some abs_fn)) Small.world0
  = value (make_tril (vector [F32.one; F32.one; F32.one])
                     (Some abs_fn)) Small.world0.
Proof.
  exact (@make_tril_forgets_diagonal_signs
           Small.library 2 [F32.opp F32.one; F32.one; F32.one] [F32.one; F32.one; F32.one]
           {| shape := [2; 2];
              data := [F32.one; F32.zero; F32.one; F32.opp F32.one] |}
           {| shape := [2; 2];
              data := [F32.one; F32.zero; F32.one; F32.one] |}
           Small.world0 eq_refl eq_refl eq_refl eq_refl
           (proj1 flipped_entries_agree) (proj2 flipped_entries_agree)).
Defined.

Lemma joint_log_prob_ignores_diagonal_signs_witness :
  let prior :=
    {| rv_logits := Dirichlet (np_ones [3]);
       rv_loc := Dirichlet (np_ones [3]);
       rv_precision := Dirichlet (np_ones [3]) |} in
  value (joint_log_prob prior (np_zeros [2; 2]) (np_zeros [2])
                        (np_zeros [3; 2])
                        (vector [F32.opp F32.one; F32.one; F32.one]))
        Small.world0
  = value (joint_log_prob prior (np_zeros [2; 2]) (np_zeros [2])
                          (np_zeros [3; 2])
                          (vector [F32.one; F32.one; F32.one]))
          Small.world0.
Proof.
  intros prior.
  exact (@joint_log_prob_ignores_diagonal_signs
           Small.library prior (np_zeros [2; 2]) (np_zeros [2])
           (np_zeros [3; 2]) 2 [F32.opp F32.one; F32.one; F32.one] [F32.one; F32.one; F32.one]
           {| shape := [2; 2];
              data := [F32.one; F32.zero; F32.one; F32.opp F32.one] |}
           {| shape := [2; 2];
              data := [F32.one; F32.zero; F32.one; F32.one] |}
           Small.world0 eq_refl eq_refl eq_refl eq_refl
           (proj1 flipped_entries_agree) (proj2 flipped_entries_agree)).
Defined.
